(** * ClickHouse settings browser: the client-side filter engine

    A shallow embedding of the state / filter / facet-count / URL core of
    [app.js] (the unified-topic version of the browser), and the properties
    the specification states about it.

    Conventions of the embedding.
    - A JavaScript string is a [string]; the text is taken to be ASCII, so
      [toLowerCase] folds [A-Z] and the white space of [trim] and of the
      regular expression class [\s] is TAB, LF, VT, FF, CR and SPACE.
    - An optional JSON field is an [option]; a field tested for truthiness
      by the code keeps JavaScript's rule that the empty string is falsy.
    - A JSON object used as a dictionary ([versions], the URL search
      parameters) is a [gmap] over its own keys; an entry of [versions] is
      an object, hence truthy.  The browser's [URLSearchParams] writes and
      reads back any value unchanged, so the URL is the map itself.
    - The DOM controls the code reads its state from are records: a toggle
      button is its [dataset.value], its [selected] class and the count it
      displays; a group is the list of its buttons in document order.  The
      scope and tier groups are part of the page; the topic and special
      groups, which the code tests for, may be absent.
    - [Array.prototype.sort] with [localeCompare] depends on the browser's
      collation; the function that sorts takes the sorting function as an
      argument, and the lemma about it only assumes that it permutes its
      input. *)

From stdpp Require Import base option list gmap strings.
From Stdlib Require Import Ascii String Bool Arith Lia.

Local Open Scope string_scope.

(** ** JavaScript string primitives *)

Definition isUpper (c : ascii) : bool :=
  let n := nat_of_ascii c in ((65 <=? n) && (n <=? 90))%nat.

Definition charToLower (c : ascii) : ascii :=
  if isUpper c then ascii_of_nat (nat_of_ascii c + 32) else c.

(** [String.prototype.toLowerCase] *)
Fixpoint toLowerCase (s : string) : string :=
  match s with
  | EmptyString => EmptyString
  | String c r => String (charToLower c) (toLowerCase r)
  end.

(** White space as [trim] and [\s] see it. *)
Definition isSpace (c : ascii) : bool :=
  let n := nat_of_ascii c in
  ((n =? 9) || (n =? 10) || (n =? 11) || (n =? 12) || (n =? 13) || (n =? 32))%nat.

Definition isEmpty (s : string) : bool :=
  match s with EmptyString => true | String _ _ => false end.

Fixpoint trimStart (s : string) : string :=
  match s with
  | EmptyString => EmptyString
  | String c r => if isSpace c then trimStart r else s
  end.

Fixpoint trimEnd (s : string) : string :=
  match s with
  | EmptyString => EmptyString
  | String c r =>
      let r' := trimEnd r in
      if isSpace c && isEmpty r' then EmptyString else String c r'
  end.

(** [String.prototype.trim] *)
Definition trim (s : string) : string := trimEnd (trimStart s).

Fixpoint startsWith (s t : string) {struct t} : bool :=
  match t with
  | EmptyString => true
  | String b t' =>
      match s with
      | EmptyString => false
      | String a s' => Ascii.eqb a b && startsWith s' t'
      end
  end.

(** [String.prototype.includes]: [t] occurs in [hay] as a substring. *)
Fixpoint includes (hay t : string) : bool :=
  if startsWith hay t then true
  else match hay with
       | EmptyString => false
       | String _ r => includes r t
       end.

(** The relation [includes] decides. *)
Definition Substring (t s : string) : Prop :=
  exists pre post, s = pre ++ t ++ post.

(** Truthiness of an optional string: [undefined], [null] and [''] are falsy. *)
Definition truthy (o : option string) : bool :=
  match o with
  | Some s => negb (isEmpty s)
  | None => false
  end.

(** [a || b] on an optional string with a string default. *)
Definition orElse (o : option string) (d : string) : string :=
  match o with
  | Some s => if isEmpty s then d else s
  | None => d
  end.

(** ** Tier of a setting *)

Definition parseTierFromFlags (flags : option string) : string :=
  match flags with
  | None => "production"
  | Some f =>
      if isEmpty f then "production"
      else
        let tokens := toLowerCase f in
        if includes tokens "experimental" then "experimental"
        else if includes tokens "beta" then "beta"
        else "production"
  end.

(** ** Search query tokens *)

(** The double quote character, code 34. *)
Definition dquote : ascii := ascii_of_nat 34.
Definition isQuote (c : ascii) : bool := Ascii.eqb c dquote.
Definition notSpace (c : ascii) : bool := negb (isSpace c).
Definition notQuote (c : ascii) : bool := negb (isQuote c).

(** The longest prefix whose characters satisfy [p], and what follows it:
    a greedy [[...]+] of the regular expression. *)
Fixpoint span (p : ascii -> bool) (s : string) : string * string :=
  match s with
  | EmptyString => (EmptyString, EmptyString)
  | String c r =>
      if p c then let '(a, b) := span p r in (String c a, b)
      else (EmptyString, s)
  end.

(** The capture groups of a match of the token expression
    [/Q([^Q]+)Q|(\S+)/g], where Q stands for the double quote. *)
Record Match := { group1 : option string; group2 : option string }.

(** A match that starts at the first character of [s], with the text after
    it.  The first alternative needs an opening quote, at least one
    character that is not a quote, and a closing quote; the second takes the
    longest run of characters that are not white space. *)
Definition matchHere (s : string) : option (Match * string) :=
  match s with
  | EmptyString => None
  | String c r =>
      let word :=
        if isSpace c then None
        else let '(w, rest) := span notSpace s in
             Some ({| group1 := None; group2 := Some w |}, rest) in
      if isQuote c then
        match span notQuote r with
        | (String _ _ as p, String _ rest) =>
            Some ({| group1 := Some p; group2 := None |}, rest)
        | _ => word
        end
      else word
  end.

(** [re.exec(q)] from the current [lastIndex]: [s] is the text from
    [lastIndex] on; the leftmost match, and the text after it. *)
Fixpoint exec (s : string) : option (Match * string) :=
  match matchHere s with
  | Some m => Some m
  | None =>
      match s with
      | EmptyString => None
      | String _ r => exec r
      end
  end.

(** The [while ((m = re.exec(q)) !== null)] loop; [None] when [fuel]
    iterations do not reach the end of the text. *)
Fixpoint tokensLoop (fuel : nat) (s : string) : option (list string) :=
  match exec s with
  | None => Some []
  | Some (m, rest) =>
      match fuel with
      | O => None
      | S fuel' =>
          let tok := trim (orElse (group1 m) (orElse (group2 m) "")) in
          match tokensLoop fuel' rest with
          | None => None
          | Some toks => Some (if isEmpty tok then toks else tok :: toks)
          end
      end
  end.

Definition parseQueryToTokens (qraw : string) : list string :=
  let q := trim (toLowerCase qraw) in
  if isEmpty q then []
  else match tokensLoop (String.length q) q with
       | Some toks => toks
       | None => []
       end.

Definition matchesQuery (hayLower : option string) (tokens : list string) : bool :=
  match tokens with
  | [] => true
  | _ => let hay := orElse hayLower "" in forallb (includes hay) tokens
  end.

(** ** Data model *)

Record VersionInfo := {
  default_value : option string;
  tier : option string;
  changed_from_prev : bool;
}.

Record Mentions := {
  docs : option (list string);
  blogs : option (list string);
}.

(** One setting of the JSON document, with the three fields the loader
    attaches ([_scope], [_hayLower], [_subsystems]). *)
Record Setting := {
  name : string;
  type_ : string;
  category : option string;
  description : option string;
  cloud_only : bool;
  alias : option string;
  flags : option string;
  versions : option (gmap string VersionInfo);
  mentions : option Mentions;
  subsystems : option (list string);
  _scope : option string;
  _hayLower : option string;
  _subsystems : option (list string);
}.

Record Dataset := {
  data_versions : list string;
  settings : option (list Setting);
  merge_tree_settings : option (list Setting);
  format_settings : option (list Setting);
}.

Definition set_scope (v : option string) (s : Setting) : Setting :=
  {| name := name s; type_ := type_ s; category := category s;
     description := description s; cloud_only := cloud_only s;
     alias := alias s; flags := flags s; versions := versions s;
     mentions := mentions s; subsystems := subsystems s;
     _scope := v; _hayLower := _hayLower s; _subsystems := _subsystems s |}.

Definition set_hayLower (v : option string) (s : Setting) : Setting :=
  {| name := name s; type_ := type_ s; category := category s;
     description := description s; cloud_only := cloud_only s;
     alias := alias s; flags := flags s; versions := versions s;
     mentions := mentions s; subsystems := subsystems s;
     _scope := _scope s; _hayLower := v; _subsystems := _subsystems s |}.

Definition set_subsystems (v : option (list string)) (s : Setting) : Setting :=
  {| name := name s; type_ := type_ s; category := category s;
     description := description s; cloud_only := cloud_only s;
     alias := alias s; flags := flags s; versions := versions s;
     mentions := mentions s; subsystems := subsystems s;
     _scope := _scope s; _hayLower := _hayLower s; _subsystems := v |}.

(** A JavaScript [Set] of strings built from an array: its elements in
    insertion order, each once (the first occurrence stays). *)
Fixpoint newSet (l : list string) : list string :=
  match l with
  | [] => []
  | x :: r => x :: List.filter (fun y => negb (String.eqb y x)) (newSet r)
  end.
(** [set.has(x)], and [array.includes(x)]. *)
Definition has (s : list string) (x : string) : bool := bool_decide (x ∈ s).

(** ** Loader: derived fields *)

Definition isWordChar (c : ascii) : bool :=
  let n := nat_of_ascii c in
  (((48 <=? n) && (n <=? 57)) || ((65 <=? n) && (n <=? 90))
   || ((97 <=? n) && (n <=? 122)) || (n =? 95))%nat.

(** [re.test(t)] for an expression of the shape [(^|\b)body]: [body]
    starts with a word character, so the prefix holds at the start of the
    text and after every character that is not a word character. *)
Fixpoint testAtBoundary (body : string -> bool) (prevIsWord : bool) (s : string) : bool :=
  (negb prevIsWord && body s)
  || match s with
     | EmptyString => false
     | String c r => testAtBoundary body (isWordChar c) r
     end.

(** The suffix [(\b|_)] after a word character: the end of the text, a
    character that is not a word character, or an underscore. *)
Definition boundaryOrUnderscore (rest : string) : bool :=
  match rest with
  | EmptyString => true
  | String c _ => negb (isWordChar c) || Ascii.eqb c "_"
  end.

Fixpoint dropChars (n : nat) (s : string) : string :=
  match n, s with
  | S n', String _ r => dropChars n' r
  | _, _ => s
  end.

(** [/(^|\b)s3(\b|_)/.test(t)] *)
Definition testS3 (t : string) : bool :=
  testAtBoundary
    (fun s => startsWith s "s3" && boundaryOrUnderscore (dropChars 2 s)) false t.

(** [/(^|\b)merge(s)?(\b|_)/.test(t)] *)
Definition testMerge (t : string) : bool :=
  testAtBoundary
    (fun s =>
       startsWith s "merge"
       && let rest := dropChars 5 s in
          (startsWith rest "s" && boundaryOrUnderscore (dropChars 1 rest))
          || boundaryOrUnderscore rest) false t.

(** [subs.add(x)] on the set under construction. *)
Definition add (x : string) (subs : list string) : list string :=
  if has subs x then subs else subs ++ [x].

Definition addIf (b : bool) (x : string) (subs : list string) : list string :=
  if b then add x subs else subs.

Definition inferSubsystems (name desc scope : string) : list string :=
  let t := toLowerCase (name ++ " " ++ desc) in
  let inc := includes t in
  let subs := [] in
  let subs := addIf (String.eqb scope "mergetree") "MergeTree" subs in
  let subs := addIf (String.eqb scope "format") "Formats" subs in
  let subs := addIf (inc "replica" || inc "replicat") "Replicated" subs in
  let subs := addIf (inc "distributed") "Distributed" subs in
  let subs := addIf (inc "kafka") "Kafka" subs in
  let subs := addIf (inc "zookeeper" || inc "keeper") "ZooKeeper/Keeper" subs in
  let subs := addIf (inc "mysql") "MySQL" subs in
  let subs := addIf (inc "postgres" || inc "psql") "PostgreSQL" subs in
  let subs := addIf (testS3 t || inc "minio") "S3" subs in
  let subs := addIf (inc "azure") "Azure" subs in
  let subs := addIf (inc "hdfs") "HDFS" subs in
  let subs := addIf (inc "rocksdb") "RocksDB" subs in
  let subs := addIf (inc "mutation" || inc "lightweight_update"
                     || inc " update" || inc " delete") "Mutations" subs in
  let subs := addIf (testMerge t) "Merges" subs in
  let subs := addIf (inc "thread" && inc "pool") "Thread Pools" subs in
  let subs := addIf (inc "on cluster" || inc "distributed_ddl" || inc " ddl")
                    "Coordination/DDL" subs in
  let subs := addIf (inc "mark_cache" || inc "uncompressed_cache"
                     || inc "compiled_expression_cache" || inc "filesystem_cache")
                    "Caches" subs in
  let subs := addIf (inc "log" || inc "trace" || inc "profile" || inc "metrics"
                     || inc "prometheus") "Observability" subs in
  let subs := addIf (inc "max_" || inc "memory_" || inc "timeout"
                     || inc "bandwidth" || inc "_pool_") "Resource Control" subs in
  let subs := addIf (inc " ssl" || inc "secure" || inc "password" || inc "auth")
                    "Security" subs in
  subs.

(** The search haystack of a record: lower-cased name, a space, description. *)
Definition hayOf (s : Setting) : string :=
  toLowerCase (name s ++ " " ++ orElse (description s) "").

(** The body of the [for] loop of [enrich]. *)
Definition enrichOne (scope : string) (s : Setting) : Setting :=
  let s := set_scope (if isEmpty scope then _scope s else Some scope) s in
  let s := set_hayLower (Some (hayOf s)) s in
  set_subsystems
    (Some (inferSubsystems (name s) (orElse (description s) "") scope)) s.

Definition enrich (arr : option (list Setting)) (scope : string) : option (list Setting) :=
  match arr with
  | None => None
  | Some l => Some (map (enrichOne scope) l)
  end.

(** [loadData] after the document has been fetched and parsed: the
    dataset the module keeps in [data]. *)
Definition loadData (doc : Dataset) : Dataset :=
  {| data_versions := data_versions doc;
     settings := enrich (settings doc) "session";
     merge_tree_settings := enrich (merge_tree_settings doc) "mergetree";
     format_settings := enrich (format_settings doc) "format" |}.

(** [Object.assign({}, s, { _scope })] followed by the haystack default. *)
Definition scoped (scope : string) (s : Setting) : Setting :=
  let obj := set_scope (Some scope) s in
  if truthy (_hayLower obj) then obj else set_hayLower (Some (hayOf obj)) obj.

Definition scopeSlice (scopes : list string) (scope : string)
    (arr : option (list Setting)) : list Setting :=
  if has scopes scope then
    match arr with Some l => map (scoped scope) l | None => [] end
  else [].

Definition combinedDataset (data : option Dataset) (scopes : list string) : list Setting :=
  match data with
  | None => []
  | Some d =>
      scopeSlice scopes "session" (settings d)
      ++ scopeSlice scopes "mergetree" (merge_tree_settings d)
      ++ scopeSlice scopes "format" (format_settings d)
  end.

(** ** Controls *)

(** A [.toggle] button: its [dataset.value], whether it carries the class
    [selected], and the count it shows (if built with one). *)
Record Toggle := { value : string; selected : bool; count : option nat }.

(** The controls the code reads its filter state from ([els]). *)
Record Controls := {
  versionSelect : string;
  scopeGroup : list Toggle;
  topicGroup : option (list Toggle);
  tierGroup : list Toggle;
  specialGroup : option (list Toggle);
  searchInput : string;
  changedOnly : bool;
}.

Definition setSelected (b : bool) (t : Toggle) : Toggle :=
  {| value := value t; selected := b; count := count t |}.

Definition getSelectedValues (container : option (list Toggle)) : list string :=
  match container with
  | None => []
  | Some g => map value (List.filter selected g)
  end.

Definition getSelectedSet (container : option (list Toggle)) : option (list string) :=
  match container with
  | None => None
  | Some _ =>
      match getSelectedValues container with
      | [] => None
      | vals => Some (newSet vals)
      end
  end.

Definition allScopes : list string := ["session"; "mergetree"; "format"].

Definition getSelectedScopes (els : Controls) : list string :=
  match getSelectedValues (Some (scopeGroup els)) with
  | [] => allScopes
  | vals => vals
  end.

(** The cache of [getSearchTokens] is keyed by the text it was computed
    from, so the function returns the tokens of the current input. *)
Definition getSearchTokens (els : Controls) : list string :=
  parseQueryToTokens (trim (toLowerCase (searchInput els))).

(** [buildToggleGroup]: one button per option, selected when the set has
    its value. *)
Definition buildToggleGroup (options : list (string * option nat))
    (selectedSet : option (list string)) : list Toggle :=
  map (fun opt =>
         {| value := opt.1;
            selected := match selectedSet with
                        | Some set => has set opt.1
                        | None => false
                        end;
            count := opt.2 |}) options.

(** The click listener of the button at position [i] of a group; [solo] is
    [ev.altKey || ev.metaKey || ev.shiftKey]. *)
Definition click (solo : bool) (i : nat) (g : list Toggle) : list Toggle :=
  if solo then alter (setSelected true) i (map (setSelected false) g)
  else alter (fun b => setSelected (negb (selected b)) b) i g.

Definition setAllSelected (container : list Toggle) (sel : bool) : list Toggle :=
  map (setSelected sel) container.

(** ** Filter engine *)

(** [s.versions && s.versions[version]] *)
Definition versionEntry (s : Setting) (version : string) : option VersionInfo :=
  match versions s with
  | None => None
  | Some m => m !! version
  end.

(** [s._subsystems || s.subsystems || []] *)
Definition subsOf (s : Setting) : list string :=
  match _subsystems s with
  | Some l => l
  | None => match subsystems s with Some l => l | None => [] end
  end.

Definition catOf (s : Setting) : string := orElse (category s) "Uncategorized".

(** [selectedTopics.has(cat) || subs.some(x => selectedTopics.has(x))] *)
Definition topicMatch (selectedTopics : list string) (s : Setting) : bool :=
  has selectedTopics (catOf s) || existsb (has selectedTopics) (subsOf s).

(** [vinfo?.tier || parseTierFromFlags(s.flags) || 'production'] *)
Definition stierOf (s : Setting) (vinfo : VersionInfo) : string :=
  orElse (Some (orElse (tier vinfo) (parseTierFromFlags (flags s)))) "production".

Definition allTopicCountOf (els : Controls) : nat :=
  match topicGroup els with Some g => List.length g | None => 0 end.

Definition applyTopicFilterOf (els : Controls) : bool :=
  let selectedTopics := newSet (getSelectedValues (topicGroup els)) in
  ((0 <? List.length selectedTopics) && (List.length selectedTopics <? allTopicCountOf els))%nat.

Definition mentionCount (o : option (list string)) : nat :=
  match o with Some l => List.length l | None => 0 end.

(** The [refs] special pill: some doc or blog mention. *)
Definition hasRefs (s : Setting) : bool :=
  match mentions s with
  | None => false
  | Some m =>
      negb ((mentionCount (docs m) =? 0) && (mentionCount (blogs m) =? 0))%nat
  end.

(** The callback that [renderList] filters the combined dataset with. *)
Definition listFilter (els : Controls) (s : Setting) : bool :=
  let version := versionSelect els in
  let selectedTopics := newSet (getSelectedValues (topicGroup els)) in
  let qTokens := getSearchTokens els in
  let selectedTiers := newSet (getSelectedValues (Some (tierGroup els))) in
  let specialSel := newSet (getSelectedValues (specialGroup els)) in
  let applyTopicFilter := applyTopicFilterOf els in
  if applyTopicFilter && negb (topicMatch selectedTopics s) then false
  else
    match versionEntry s version with
    | None => false
    | Some vinfo =>
        let stier := stierOf s vinfo in
        if (0 <? List.length selectedTiers)%nat && negb (has selectedTiers stier) then false
        else if changedOnly els && negb (changed_from_prev vinfo) then false
        else if has specialSel "cloud" && negb (cloud_only s) then false
        else if has specialSel "refs" && negb (hasRefs s) then false
        else match qTokens with
             | [] => true
             | _ => matchesQuery (_hayLower s) qTokens
             end
    end.

(** The items [renderList] shows, in order; the summary line starts with
    their number. *)
Definition renderList (data : option Dataset) (els : Controls) : list Setting :=
  List.filter (listFilter els) (combinedDataset data (getSelectedScopes els)).

(** The options [passFilters] reads ([ignoreCategory] and [ignoreSubsystem]
    are passed by one caller and read nowhere). *)
Record Opts := { ignoreTier : bool; ignoreTopics : bool }.

Definition passFilters (els : Controls) (s : Setting) (opts : Opts) : bool :=
  let version := versionSelect els in
  let qTokens := getSearchTokens els in
  let selectedTiers := newSet (getSelectedValues (Some (tierGroup els))) in
  let selectedTopics := newSet (getSelectedValues (topicGroup els)) in
  let applyTopicFilter := applyTopicFilterOf els in
  match versionEntry s version with
  | None => false
  | Some vinfo =>
      let stier := stierOf s vinfo in
      if negb (ignoreTier opts) && (0 <? List.length selectedTiers)%nat
         && negb (has selectedTiers stier) then false
      else if negb (ignoreTopics opts) && applyTopicFilter
              && negb (topicMatch selectedTopics s) then false
      else if changedOnly els && negb (changed_from_prev vinfo) then false
      else if negb (matchesQuery (_hayLower s) qTokens) then false
      else true
  end.

(** ** Facet counts *)

Definition TOPIC_BLOCKLIST : list string := ["Formats"; "MergeTree"; "Session"].

(** [(m.get(k) || 0) + 1] stored back under [k]. *)
Definition bump (k : string) (m : gmap string nat) : gmap string nat :=
  <[k := default 0 (m !! k) + 1]> m.

(** [m.get(k) || 0] *)
Definition countOf (m : gmap string nat) (k : string) : nat := default 0 (m !! k).

Definition scopeCounts (data : option Dataset) (els : Controls) : gmap string nat :=
  let allItems := combinedDataset data allScopes in
  foldl (fun acc s =>
           if passFilters els s {| ignoreTier := false; ignoreTopics := false |}
           then bump (orElse (_scope s) "undefined") acc else acc)
        (<["session" := 0]> (<["mergetree" := 0]> (<["format" := 0]> ∅)))
        allItems.

(** The topics one record counts for: its category, then its subsystems. *)
Definition topicsOfItem (s : Setting) : list string :=
  (if has TOPIC_BLOCKLIST (catOf s) then [] else [catOf s])
  ++ List.filter (fun x => negb (has TOPIC_BLOCKLIST x)) (subsOf s).

Definition topicCount (els : Controls) (itemsInScopes : list Setting) : gmap string nat :=
  foldl (fun acc s =>
           if passFilters els s {| ignoreTier := false; ignoreTopics := true |}
           then foldl (fun acc x => bump x acc) acc (topicsOfItem s)
           else acc)
        ∅ itemsInScopes.

(** The selection a rebuilt topic group gets. *)
Definition topicSelection (prev : list Toggle) (topics : list string) : list string :=
  let prevVals := getSelectedValues (Some prev) in
  let prevAllCount := List.length prev in
  let prevAll := ((List.length prevVals =? prevAllCount) && (0 <? prevAllCount))%nat in
  let prevNone := ((List.length prevVals =? 0) && (0 <? prevAllCount))%nat in
  if prevAll then newSet topics
  else if prevNone then newSet []
  else
    let prevSet := newSet prevVals in
    let topicSel := newSet (List.filter (has prevSet) topics) in
    if ((List.length topicSel =? 0) && (0 <? List.length topics))%nat then newSet topics
    else topicSel.

Definition tierCount (els : Controls) (itemsInScopes : list Setting) : gmap string nat :=
  foldl (fun acc s =>
           if passFilters els s {| ignoreTier := true; ignoreTopics := false |}
           then match versionEntry s (versionSelect els) with
                | Some vinfo => bump (stierOf s vinfo) acc
                | None => acc
                end
           else acc)
        (<["production" := 0]> (<["beta" := 0]> (<["experimental" := 0]> ∅)))
        itemsInScopes.

Definition allTiers : list string := ["production"; "beta"; "experimental"].

Definition withScopeGroup (g : list Toggle) (els : Controls) : Controls :=
  {| versionSelect := versionSelect els; scopeGroup := g;
     topicGroup := topicGroup els; tierGroup := tierGroup els;
     specialGroup := specialGroup els; searchInput := searchInput els;
     changedOnly := changedOnly els |}.

Definition withTopicGroup (g : option (list Toggle)) (els : Controls) : Controls :=
  {| versionSelect := versionSelect els; scopeGroup := scopeGroup els;
     topicGroup := g; tierGroup := tierGroup els;
     specialGroup := specialGroup els; searchInput := searchInput els;
     changedOnly := changedOnly els |}.

Definition withTierGroup (g : list Toggle) (els : Controls) : Controls :=
  {| versionSelect := versionSelect els; scopeGroup := scopeGroup els;
     topicGroup := topicGroup els; tierGroup := g;
     specialGroup := specialGroup els; searchInput := searchInput els;
     changedOnly := changedOnly els |}.

Definition orAll (o : option (list string)) (all : list string) : list string :=
  match o with Some set => set | None => newSet all end.

(** [updateFacetCounts]: the three groups are rebuilt one after the other,
    each step reading the controls as the steps before left them.
    [localeSort] is [sort((a,b) => a.localeCompare(b))]. *)
Definition updateFacetCounts (localeSort : list string -> list string)
    (data : option Dataset) (els : Controls) : Controls :=
  match data with
  | None => els
  | Some _ =>
      (* scope counts *)
      let sc := scopeCounts data els in
      let scopeSel := orAll (getSelectedSet (Some (scopeGroup els))) allScopes in
      let els :=
        withScopeGroup
          (buildToggleGroup (map (fun v => (v, Some (countOf sc v))) allScopes)
                            (Some scopeSel)) els in
      (* topic counts *)
      let currentScopes := getSelectedScopes els in
      let itemsInScopes := combinedDataset data currentScopes in
      let tc := topicCount els itemsInScopes in
      let els :=
        match topicGroup els with
        | None => els
        | Some prev =>
            let topics := localeSort (newSet (flat_map topicsOfItem itemsInScopes)) in
            let topicSel := topicSelection prev topics in
            withTopicGroup
              (Some (buildToggleGroup (map (fun t => (t, Some (countOf tc t))) topics)
                                      (Some topicSel))) els
        end in
      (* tier counts *)
      let tic := tierCount els itemsInScopes in
      let tierSel := orAll (getSelectedSet (Some (tierGroup els))) allTiers in
      withTierGroup
        (buildToggleGroup (map (fun v => (v, Some (countOf tic v))) allTiers)
                          (Some tierSel)) els
  end.

(** ** URL state *)

Definition isComma (c : ascii) : bool := Ascii.eqb c ",".

(** [v.split(',')] *)
Fixpoint splitComma (s : string) : list string :=
  match s with
  | EmptyString => [EmptyString]
  | String c r =>
      if isComma c then EmptyString :: splitComma r
      else match splitComma r with
           | h :: t => String c h :: t
           | [] => [String c EmptyString]
           end
  end.

(** [arr.join(',')] *)
Definition joinComma (arr : list string) : string := String.concat "," arr.

(** The object [parseStateFromUrl] returns. *)
Record UrlState := {
  st_q : string;
  st_v : string;
  st_scopes : option (list string);
  st_topics : option (list string);
  st_tiers : option (list string);
  st_special : option (list string);
  st_changed : bool;
}.

Definition getList (sp : gmap string string) (k : string) : option (list string) :=
  match sp !! k with
  | None => None
  | Some v =>
      if isEmpty v then None
      else Some (List.filter (fun x => negb (isEmpty x)) (map trim (splitComma v)))
  end.

(** [parseStateFromUrl], on the search parameters of the location. *)
Definition parseStateFromUrl (sp : gmap string string) : UrlState :=
  {| st_q := orElse (sp !! "q") "";
     st_v := orElse (sp !! "v") "";
     st_scopes := getList sp "scopes";
     st_topics := getList sp "topics";
     st_tiers := getList sp "tiers";
     st_special := getList sp "special";
     st_changed := match sp !! "changed" with
                   | Some c => String.eqb c "1"
                   | None => false
                   end |}.

Definition setList (k : string) (arr : list string) (sp : gmap string string)
    : gmap string string :=
  match arr with
  | [] => delete k sp
  | _ => <[k := joinComma arr]> sp
  end.

Definition setOrDelete (k : string) (b : bool) (v : string) (sp : gmap string string)
    : gmap string string :=
  if b then <[k := v]> sp else delete k sp.

(** [updateUrlFromState]: the search parameters of the location after
    the call, from those before it. *)
Definition updateUrlFromState (els : Controls) (sp : gmap string string)
    : gmap string string :=
  let q := searchInput els in
  let sp := setOrDelete "q" (negb (isEmpty q) && negb (isEmpty (trim q))) (trim q) sp in
  let v := versionSelect els in
  let sp := setOrDelete "v" (negb (isEmpty v)) v sp in
  let sp := setList "scopes" (getSelectedValues (Some (scopeGroup els))) sp in
  let sp := setList "topics" (getSelectedValues (topicGroup els)) sp in
  let sp := setList "tiers" (getSelectedValues (Some (tierGroup els))) sp in
  let sp := setList "special" (getSelectedValues (specialGroup els)) sp in
  setOrDelete "changed" (changedOnly els) "1" sp.

(** ** The filter dimensions, one by one

    What each early [return false] of the filter callback tests, named so
    that the theorems can speak of one dimension at a time. *)

Definition selectedTiersOf (els : Controls) : list string :=
  newSet (getSelectedValues (Some (tierGroup els))).

Definition selectedTopicsOf (els : Controls) : list string :=
  newSet (getSelectedValues (topicGroup els)).

Definition specialSelOf (els : Controls) : list string :=
  newSet (getSelectedValues (specialGroup els)).

Definition TierDim (els : Controls) (s : Setting) (vinfo : VersionInfo) : Prop :=
  selectedTiersOf els = [] \/ stierOf s vinfo ∈ selectedTiersOf els.

Definition topicDim (els : Controls) (s : Setting) : bool :=
  negb (applyTopicFilterOf els) || topicMatch (selectedTopicsOf els) s.

Definition changedDim (els : Controls) (vinfo : VersionInfo) : bool :=
  negb (changedOnly els) || changed_from_prev vinfo.

Definition specialDim (els : Controls) (s : Setting) : bool :=
  (negb (has (specialSelOf els) "cloud") || cloud_only s)
  && (negb (has (specialSelOf els) "refs") || hasRefs s).

Definition queryDim (els : Controls) (s : Setting) : bool :=
  matchesQuery (_hayLower s) (getSearchTokens els).

(** ** A small dataset

    The scenario of the specification: one session setting [max_threads],
    category Performance, present in version 25.8 with tier production;
    beside it a beta MergeTree setting that version 25.8 does not have. *)

Definition mkToggle (v : string) (b : bool) : Toggle :=
  {| value := v; selected := b; count := None |}.

Definition ex_max_threads : Setting :=
  {| name := "max_threads"; type_ := "MaxThreads";
     category := Some "Performance";
     description := Some "The maximum number of query processing threads.";
     cloud_only := false; alias := None; flags := None;
     versions := Some {[ "25.8" := {| default_value := Some "auto";
                                      tier := Some "production";
                                      changed_from_prev := false |} ]};
     mentions := None; subsystems := None;
     _scope := None; _hayLower := None; _subsystems := None |}.

Definition ex_old_setting : Setting :=
  {| name := "ratio_of_defaults"; type_ := "Float";
     category := Some "Storage";
     description := None;
     cloud_only := false; alias := None; flags := Some "BETA";
     versions := Some {[ "25.3" := {| default_value := None;
                                      tier := None;
                                      changed_from_prev := true |} ]};
     mentions := None; subsystems := None;
     _scope := None; _hayLower := None; _subsystems := None |}.

Definition ex_doc : Dataset :=
  {| data_versions := ["25.8"; "25.3"];
     settings := Some [ex_max_threads];
     merge_tree_settings := Some [ex_old_setting];
     format_settings := Some [] |}.

Definition ex_els : Controls :=
  {| versionSelect := "25.8";
     scopeGroup := [mkToggle "session" true; mkToggle "mergetree" false;
                    mkToggle "format" false];
     topicGroup := Some [mkToggle "Performance" true;
                         mkToggle "Resource Control" false;
                         mkToggle "Storage" false];
     tierGroup := [mkToggle "production" true; mkToggle "beta" false;
                   mkToggle "experimental" false];
     specialGroup := Some [mkToggle "cloud" false; mkToggle "refs" false];
     searchInput := "";
     changedOnly := false |}.

Definition noOpts : Opts := {| ignoreTier := false; ignoreTopics := false |}.

(** ** The selection policy, in the words of the specification

    The previous option set, the previous selection and the new option set
    as finite sets: all selected stays all, none selected stays none,
    otherwise the old selection is cut down to the new options, and an
    empty cut falls back to all new options. *)


(** ** Values that survive the comma-separated URL lists *)

Fixpoint anyChar (p : ascii -> bool) (s : string) : bool :=
  match s with
  | EmptyString => false
  | String c r => p c || anyChar p r
  end.

(** A value a comma-joined list can carry: not empty, no comma inside, no
    white space at either end. *)
Definition urlSafe (v : string) : bool :=
  negb (isEmpty v) && negb (anyChar isComma v) && String.eqb (trim v) v.

(** Controls with a topic whose name holds a comma, and a query typed with
    a leading blank. *)
Definition ex_comma_els : Controls :=
  {| versionSelect := "25.8";
     scopeGroup := [mkToggle "session" true; mkToggle "mergetree" false;
                    mkToggle "format" false];
     topicGroup := Some [mkToggle "Input, Output" true; mkToggle "Storage" false];
     tierGroup := [mkToggle "production" true; mkToggle "beta" false;
                   mkToggle "experimental" false];
     specialGroup := Some [mkToggle "cloud" true; mkToggle "refs" false];
     searchInput := " max";
     changedOnly := true |}.

(** Controls with a selection in every group, all values plain. *)
Definition ex_url_els : Controls :=
  {| versionSelect := "25.8";
     scopeGroup := [mkToggle "session" true; mkToggle "mergetree" false;
                    mkToggle "format" true];
     topicGroup := Some [mkToggle "Performance" true;
                         mkToggle "Resource Control" true;
                         mkToggle "Storage" false];
     tierGroup := [mkToggle "production" true; mkToggle "beta" false;
                   mkToggle "experimental" false];
     specialGroup := Some [mkToggle "cloud" false; mkToggle "refs" true];
     searchInput := " max_ Threads ";
     changedOnly := true |}.

(** ** Queries as the specification describes them

    A query written as parts separated by one blank: a part is a word, or
    a phrase between double quotes. *)

Inductive QueryPart :=
  | Word (w : string)
  | Phrase (p : string).

Definition quoted (p : string) : string :=
  String dquote (p ++ String dquote EmptyString).

Definition partText (x : QueryPart) : string :=
  match x with
  | Word w => w
  | Phrase p => quoted p
  end.

Definition queryText (parts : list QueryPart) : string :=
  String.concat " " (map partText parts).



(** The query of the specification's example: the phrase foo bar in
    quotes, a blank, and the word baz. *)
Definition exampleQuery : string := queryText [Phrase "foo bar"; Word "baz"].




Definition withSpecialGroup (g : option (list Toggle)) (els : Controls) : Controls :=
  {| versionSelect := versionSelect els; scopeGroup := scopeGroup els;
     topicGroup := topicGroup els; tierGroup := tierGroup els;
     specialGroup := g; searchInput := searchInput els;
     changedOnly := changedOnly els |}.

(** The example controls with every scope, topic and tier selected and the
    Cloud-only pill pressed. *)
Definition ex_cloud_els : Controls :=
  {| versionSelect := "25.8";
     scopeGroup := [mkToggle "session" true; mkToggle "mergetree" true;
                    mkToggle "format" true];
     topicGroup := Some [mkToggle "Performance" true;
                         mkToggle "Resource Control" true;
                         mkToggle "Storage" true];
     tierGroup := [mkToggle "production" true; mkToggle "beta" true;
                   mkToggle "experimental" true];
     specialGroup := Some [mkToggle "cloud" true; mkToggle "refs" false];
     searchInput := "";
     changedOnly := false |}.

(** A record whose category is also one of its inferred subsystem tags. *)
Definition ex_kafka : Setting :=
  {| name := "kafka_max_wait_ms"; type_ := "Milliseconds";
     category := Some "Kafka";
     description := Some "The wait time for reading from Kafka before retry.";
     cloud_only := false; alias := None; flags := None;
     versions := Some {[ "25.8" := {| default_value := Some "5000";
                                      tier := Some "production";
                                      changed_from_prev := false |} ]};
     mentions := None; subsystems := None;
     _scope := None; _hayLower := None; _subsystems := None |}.

(** ** Topic colours *)

(** One round of the loop of [topicColorIndex]: [(h * 31 + code) >>> 0].
    The product stays below 2^53, so the arithmetic is exact and the
    shift keeps the low 32 bits. *)
Definition hashStep (h : Z) (c : ascii) : Z :=
  ((h * 31 + Z.of_nat (nat_of_ascii c)) mod 2 ^ 32)%Z.

Fixpoint hashFrom (h : Z) (s : string) : Z :=
  match s with
  | EmptyString => h
  | String c r => hashFrom (hashStep h c) r
  end.

Definition topicColorIndex (name : option string) : Z :=
  match name with
  | None => 0%Z
  | Some s => if isEmpty s then 0%Z else (hashFrom 0 s mod 7)%Z
  end.

(** The decimal text of an index of the seven-colour palette. *)
Definition digitText (n : Z) : string :=
  String (ascii_of_nat (48 + Z.to_nat n)) EmptyString.

Definition topicColorClass (name : option string) : string :=
  "tc-" ++ digitText (topicColorIndex name).

(** ** Markup helpers *)

(** The replacement [escapeHtml] makes for one character; 38, 60, 62, 34
    and 39 are the ampersand, the two angle brackets, the double quote and
    the apostrophe. *)
Definition escapeChar (c : ascii) : string :=
  let n := nat_of_ascii c in
  if (n =? 38)%nat then "&amp;"
  else if (n =? 60)%nat then "&lt;"
  else if (n =? 62)%nat then "&gt;"
  else if (n =? 34)%nat then "&quot;"
  else if (n =? 39)%nat then "&#39;"
  else String c EmptyString.

Fixpoint escapeText (s : string) : string :=
  match s with
  | EmptyString => EmptyString
  | String c r => escapeChar c ++ escapeText r
  end.

Definition escapeHtml (s : option string) : string :=
  escapeText (orElse s "").

(** A character that can open or close markup or an attribute value. *)
Definition isMarkup (c : ascii) : bool :=
  let n := nat_of_ascii c in
  ((n =? 60) || (n =? 62) || (n =? 34) || (n =? 39))%nat.

(** The class [[a-z0-9_-]] of the two sanitising expressions. *)
Definition isIdChar (c : ascii) : bool :=
  let n := nat_of_ascii c in
  (((97 <=? n) && (n <=? 122)) || ((48 <=? n) && (n <=? 57))
   || (n =? 95) || (n =? 45))%nat.


Fixpoint filterChars (p : ascii -> bool) (s : string) : string :=
  match s with
  | EmptyString => EmptyString
  | String c r => if p c then String c (filterChars p r) else filterChars p r
  end.





(** [String(v).toLowerCase().replace(/[^a-z0-9_-]/g, '')], the class
    suffix of a toggle button. *)
Definition classSuffix (v : string) : string := filterChars isIdChar (toLowerCase v).

(** ** Theme *)

(** The [data-theme] attribute of the document and the [theme] item of the
    local storage. *)
Record Theme := { dataTheme : option string; stored : option string }.

Definition applySavedTheme (t : Theme) : Theme :=
  let theme :=
    match stored t with
    | Some saved => if String.eqb saved "light" then "light" else "dark"
    | None => "dark"
    end in
  {| dataTheme := Some theme; stored := stored t |}.

Definition toggleTheme (t : Theme) : Theme :=
  let cur := orElse (dataTheme t) "dark" in
  let next := if String.eqb cur "dark" then "light" else "dark" in
  {| dataTheme := Some next; stored := Some next |}.

(** ** Restoring the controls from the URL *)






(** The options of the loop that counts tiers. *)
Definition tierOnly : Opts := {| ignoreTier := true; ignoreTopics := false |}.

(** ** What [updateUrlFromState] writes

    For each parameter the function owns, the value it leaves in the URL
    ([None] inside: the parameter is removed); for any other name, nothing. *)

Definition listParam (arr : list string) : option string :=
  match arr with
  | [] => None
  | _ => Some (joinComma arr)
  end.

Definition writtenParam (els : Controls) (k : string) : option (option string) :=
  if String.eqb k "changed" then Some (if changedOnly els then Some "1" else None)
  else if String.eqb k "special"
  then Some (listParam (getSelectedValues (specialGroup els)))
  else if String.eqb k "tiers"
  then Some (listParam (getSelectedValues (Some (tierGroup els))))
  else if String.eqb k "topics"
  then Some (listParam (getSelectedValues (topicGroup els)))
  else if String.eqb k "scopes"
  then Some (listParam (getSelectedValues (Some (scopeGroup els))))
  else if String.eqb k "v"
  then Some (if isEmpty (versionSelect els) then None else Some (versionSelect els))
  else if String.eqb k "q"
  then Some (if isEmpty (trim (searchInput els)) then None
             else Some (trim (searchInput els)))
  else None.

(** The tags [inferSubsystems] can give, in the order of its rules. *)
Definition subsystemTags : list string :=
  ["MergeTree"; "Formats"; "Replicated"; "Distributed"; "Kafka";
   "ZooKeeper/Keeper"; "MySQL"; "PostgreSQL"; "S3"; "Azure"; "HDFS"; "RocksDB";
   "Mutations"; "Merges"; "Thread Pools"; "Coordination/DDL"; "Caches";
   "Observability"; "Resource Control"; "Security"].

(** ** Building the controls *)

(** What [renderList] remembers for the next rebuild of the controls. *)
Record Memo := {
  lastScopes : option (list string);
  lastApplyTopicFilter : option bool;
}.

Definition renderListMemo (els : Controls) : Memo :=
  {| lastScopes := Some (newSet (getSelectedScopes els));
     lastApplyTopicFilter := Some (applyTopicFilterOf els) |}.

Definition uniqueCategories (localeSort : list string -> list string)
    (settings : list Setting) : list string :=
  localeSort (newSet (map catOf settings)).

(** [(s.subsystems || s._subsystems) || []] *)
Definition rawSubsOf (s : Setting) : list string :=
  match subsystems s with
  | Some l => l
  | None => match _subsystems s with Some l => l | None => [] end
  end.

Definition uniqueSubsystems (localeSort : list string -> list string)
    (settings : list Setting) : list string :=
  localeSort (newSet (flat_map rawSubsOf settings)).

Definition notBlocked (t : string) : bool := negb (has TOPIC_BLOCKLIST t).

(** Options built without a count. *)
Definition plain (l : list string) : list (string * option nat) :=
  map (fun v => (v, None)) l.

Definition withVersion (v : string) (els : Controls) : Controls :=
  {| versionSelect := v; scopeGroup := scopeGroup els;
     topicGroup := topicGroup els; tierGroup := tierGroup els;
     specialGroup := specialGroup els; searchInput := searchInput els;
     changedOnly := changedOnly els |}.

(** The scopes widened: every scope of before is still selected and there
    are more of them. *)
Definition isSupersetOf (prevScopes : option (list string)) (newScopes : list string)
    : bool :=
  match prevScopes with
  | None => false
  | Some prev =>
      (List.length prev <=? List.length newScopes)%nat
      && forallb (has newScopes) prev
      && (List.length prev <? List.length newScopes)%nat
  end.

(** The steps of [renderControls], in order: scope group, version select,
    topic group, tier group, special group. *)
Definition rcScopes (els : Controls) : Controls :=
  withScopeGroup
    (buildToggleGroup (plain allScopes)
       (Some (orAll (getSelectedSet (Some (scopeGroup els))) allScopes))) els.

Definition rcVersion (d : Dataset) (els : Controls) : Controls :=
  withVersion (match data_versions d with v :: _ => v | [] => "" end) els.

Definition rcTopics (localeSort : list string -> list string) (d : Dataset)
    (memo : Memo) (els : Controls) : Controls :=
  let settings := combinedDataset (Some d) (getSelectedScopes els) in
  let cats := List.filter notBlocked (uniqueCategories localeSort settings) in
  let subs := List.filter notBlocked (uniqueSubsystems localeSort settings) in
  let topics := localeSort (newSet (cats ++ subs)) in
  match topicGroup els with
  | None => els
  | Some prev =>
      let newScopes := getSelectedScopes els in
      let isSuperset := isSupersetOf (lastScopes memo) newScopes in
      let sel := getSelectedSet (Some prev) in
      let sel :=
        if isSuperset
           && match lastApplyTopicFilter memo with
              | Some false => true
              | _ => false
              end
        then Some (newSet topics) else sel in
      withTopicGroup (Some (buildToggleGroup (plain topics) (Some (orAll sel topics)))) els
  end.

Definition rcTiers (els : Controls) : Controls :=
  withTierGroup
    (buildToggleGroup (plain allTiers)
       (Some (orAll (getSelectedSet (Some (tierGroup els))) allTiers))) els.

Definition rcSpecial (els : Controls) : Controls :=
  match specialGroup els with
  | None => els
  | Some g =>
      withSpecialGroup
        (Some (buildToggleGroup (plain ["cloud"; "refs"])
                 (Some (match getSelectedSet (Some g) with
                        | Some set => set
                        | None => []
                        end)))) els
  end.

(** [renderControls], for the loaded dataset [d]. *)
Definition renderControls (localeSort : list string -> list string) (d : Dataset)
    (memo : Memo) (els : Controls) : Controls :=
  updateFacetCounts localeSort (Some d)
    (rcSpecial (rcTiers (rcTopics localeSort d memo (rcVersion d (rcScopes els))))).

(** * Properties *)

(** ** Strings *)

Lemma startsWith_spec s t : startsWith s t = true <-> exists r, s = t ++ r.
Proof.
  revert s; induction t as [|b t IH]; intros s; simpl.
  - split; [intros _; now exists s | intros _; reflexivity].
  - destruct s as [|a s].
    + split; [discriminate | intros [r Hr]; discriminate].
    + rewrite andb_true_iff, IH. split.
      * intros [Hab [r ->]]. apply Ascii.eqb_eq in Hab as ->. now exists r.
      * intros [r Hr]. injection Hr as -> ->. split; [apply Ascii.eqb_refl | now exists r].
Qed.

Lemma includes_spec hay t : includes hay t = true <-> Substring t hay.
Proof.
  unfold Substring. induction hay as [|a hay IH].
  - simpl. destruct (startsWith "" t) eqn:E.
    + apply startsWith_spec in E as [r Hr]. split; [|intros _; reflexivity].
      intros _. exists "", r. exact Hr.
    + split; [discriminate|]. intros (pre & post & H).
      destruct pre; [|discriminate]. simpl in H.
      assert (startsWith "" t = true) by (apply startsWith_spec; now exists post).
      congruence.
  - cbn [includes]. destruct (startsWith (String a hay) t) eqn:E.
    + apply startsWith_spec in E as [r Hr]. split; [|intros _; reflexivity].
      intros _. exists "", r. exact Hr.
    + rewrite IH. split.
      * intros (pre & post & ->). now exists (String a pre), post.
      * intros (pre & post & H). destruct pre as [|c pre].
        -- simpl in H.
           assert (startsWith (String a hay) t = true)
             by (apply startsWith_spec; now exists post).
           congruence.
        -- injection H as -> ->. now exists pre, post.
Qed.

Lemma not_includes_spec hay t : includes hay t = false <-> ~ Substring t hay.
Proof.
  rewrite <- includes_spec. destruct (includes hay t); split; try easy.
Qed.

(** ** Tier of a setting *)

(** C10. [parseTierFromFlags] is total and always answers one of the three
    tiers: a missing or empty flags value gives production; a flags string
    whose lower-cased text contains experimental gives experimental, also
    when it contains beta; otherwise one that contains beta gives beta; every
    other string gives production. *)
Theorem C10_parseTierFromFlags_cases :
  (forall flags, parseTierFromFlags flags ∈ allTiers)
  /\ parseTierFromFlags None = "production"
  /\ parseTierFromFlags (Some "") = "production"
  /\ (forall f, Substring "experimental" (toLowerCase f) ->
                parseTierFromFlags (Some f) = "experimental")
  /\ (forall f, ~ Substring "experimental" (toLowerCase f) ->
                Substring "beta" (toLowerCase f) ->
                parseTierFromFlags (Some f) = "beta")
  /\ (forall f, ~ Substring "experimental" (toLowerCase f) ->
                ~ Substring "beta" (toLowerCase f) ->
                parseTierFromFlags (Some f) = "production").
Proof.
  split; [|split; [reflexivity|split; [reflexivity|split; [|split]]]].
  - intros [f|]; unfold parseTierFromFlags, allTiers.
    + destruct (isEmpty f); [set_solver|].
      destruct (includes _ "experimental"); [set_solver|].
      destruct (includes _ "beta"); set_solver.
    + set_solver.
  - intros f He. unfold parseTierFromFlags.
    destruct f as [|c f]; simpl isEmpty; cbv iota.
    + destruct He as (pre & post & He). destruct pre; discriminate.
    + apply includes_spec in He. now rewrite He.
  - intros f Hne Hb. unfold parseTierFromFlags.
    destruct f as [|c f]; simpl isEmpty; cbv iota.
    + destruct Hb as (pre & post & Hb). destruct pre; discriminate.
    + apply not_includes_spec in Hne. apply includes_spec in Hb.
      now rewrite Hne, Hb.
  - intros f Hne Hnb. unfold parseTierFromFlags.
    destruct (isEmpty f); [reflexivity|].
    apply not_includes_spec in Hne, Hnb. now rewrite Hne, Hnb.
Qed.

Lemma C10_parseTierFromFlags_witness :
  parseTierFromFlags (Some "Beta EXPERIMENTAL") = "experimental"
  /\ parseTierFromFlags (Some "BETA") = "beta"
  /\ parseTierFromFlags (Some "obsolete") = "production".
Proof.
  destruct C10_parseTierFromFlags_cases as (_ & _ & _ & He & Hb & Hp).
  split; [|split].
  - apply He. apply includes_spec. vm_compute. reflexivity.
  - apply Hb.
    + apply not_includes_spec. vm_compute. reflexivity.
    + apply includes_spec. vm_compute. reflexivity.
  - apply Hp; apply not_includes_spec; vm_compute; reflexivity.
Defined.

(** ** Filter predicate *)

Lemma has_true (l : list string) x : has l x = true <-> x ∈ l.
Proof. unfold has. apply bool_decide_eq_true. Qed.

Lemma has_false (l : list string) x : has l x = false <-> x ∉ l.
Proof. unfold has. apply bool_decide_eq_false. Qed.

Lemma nonempty_ltb {A} (l : list A) : (0 <? List.length l)%nat = false <-> l = [].
Proof. destruct l; unfold Nat.ltb; simpl; split; intros; congruence. Qed.

Lemma tier_test els s vinfo :
  (0 <? List.length (selectedTiersOf els))%nat
  && negb (has (selectedTiersOf els) (stierOf s vinfo)) = false
  <-> TierDim els s vinfo.
Proof.
  unfold TierDim. rewrite andb_false_iff, nonempty_ltb, negb_false_iff, has_true.
  reflexivity.
Qed.

Lemma query_test els s :
  match getSearchTokens els with
  | [] => true
  | _ => matchesQuery (_hayLower s) (getSearchTokens els)
  end = queryDim els s.
Proof. unfold queryDim. now destruct (getSearchTokens els). Qed.

(** With an entry for the selected version, the list filter is the
    conjunction of its five dimensions. *)
Lemma listFilter_dims els s vinfo :
  versionEntry s (versionSelect els) = Some vinfo ->
  listFilter els s = true
  <-> topicDim els s = true /\ TierDim els s vinfo /\ changedDim els vinfo = true
      /\ specialDim els s = true /\ queryDim els s = true.
Proof.
  intros Hv. unfold listFilter. rewrite Hv, query_test.
  fold (selectedTopicsOf els) (selectedTiersOf els) (specialSelOf els).
  rewrite <- tier_test. unfold topicDim, changedDim, specialDim.
  destruct (applyTopicFilterOf els), (topicMatch (selectedTopicsOf els) s),
    ((0 <? List.length (selectedTiersOf els))%nat),
    (has (selectedTiersOf els) (stierOf s vinfo)),
    (changedOnly els), (changed_from_prev vinfo),
    (has (specialSelOf els) "cloud"), (cloud_only s),
    (has (specialSelOf els) "refs"), (hasRefs s), (queryDim els s);
    simpl; intuition congruence.
Qed.

(** The same for [passFilters], where an option can switch the tier or the
    topic dimension off; the special pills are not among its tests. *)
Lemma passFilters_dims els s vinfo opts :
  versionEntry s (versionSelect els) = Some vinfo ->
  passFilters els s opts = true
  <-> (ignoreTier opts = true \/ TierDim els s vinfo)
      /\ (ignoreTopics opts = true \/ topicDim els s = true)
      /\ changedDim els vinfo = true /\ queryDim els s = true.
Proof.
  intros Hv. unfold passFilters. rewrite Hv.
  fold (selectedTopicsOf els) (selectedTiersOf els) (queryDim els s).
  rewrite <- tier_test. unfold topicDim, changedDim.
  destruct (ignoreTier opts), (ignoreTopics opts),
    (applyTopicFilterOf els), (topicMatch (selectedTopicsOf els) s),
    ((0 <? List.length (selectedTiersOf els))%nat),
    (has (selectedTiersOf els) (stierOf s vinfo)),
    (changedOnly els), (changed_from_prev vinfo), (queryDim els s);
    simpl; intuition congruence.
Qed.



(** The scenario of the specification: scope session, tier production,
    topic Performance and an empty query return exactly [max_threads]. *)
Example scenario_max_threads :
  map name (renderList (Some (loadData ex_doc)) ex_els) = ["max_threads"].
Proof. vm_compute. reflexivity. Qed.

Lemma parseTierFromFlags_nonempty flags : isEmpty (parseTierFromFlags flags) = false.
Proof.
  unfold parseTierFromFlags. destruct flags as [f|]; [|reflexivity].
  destruct (isEmpty f); [reflexivity|].
  destruct (includes _ "experimental"); [reflexivity|].
  now destruct (includes _ "beta").
Qed.

(** C7. For a record with an entry for the selected version, the effective
    tier is the entry's tier when it has one, and the tier read from the
    record's flags otherwise; the record passes the tier dimension exactly
    when no tier is selected or the effective tier is selected, and the
    filter is that test together with the other dimensions. *)
Theorem C7_effective_tier (els : Controls) (r : Setting) (vinfo : VersionInfo) :
  versionEntry r (versionSelect els) = Some vinfo ->
  (forall t, tier vinfo = Some t -> t <> "" -> stierOf r vinfo = t)
  /\ (truthy (tier vinfo) = false ->
      stierOf r vinfo = parseTierFromFlags (flags r))
  /\ (listFilter els r = true
      <-> (selectedTiersOf els = [] \/ stierOf r vinfo ∈ selectedTiersOf els)
          /\ topicDim els r = true /\ changedDim els vinfo = true
          /\ specialDim els r = true /\ queryDim els r = true)
  /\ (forall opts, ignoreTier opts = false ->
      passFilters els r opts = true
      <-> (selectedTiersOf els = [] \/ stierOf r vinfo ∈ selectedTiersOf els)
          /\ (ignoreTopics opts = true \/ topicDim els r = true)
          /\ changedDim els vinfo = true /\ queryDim els r = true).
Proof.
  intros Hv. split; [|split; [|split]].
  - intros t Ht Hne. unfold stierOf. rewrite Ht. simpl.
    destruct t; [congruence | reflexivity].
  - intros Ht. unfold stierOf.
    assert (orElse (tier vinfo) (parseTierFromFlags (flags r))
            = parseTierFromFlags (flags r)) as ->.
    { destruct (tier vinfo) as [[|c t]|]; simpl in *; congruence. }
    simpl. now rewrite parseTierFromFlags_nonempty.
  - rewrite (listFilter_dims els r vinfo Hv). unfold TierDim. tauto.
  - intros opts Hi. rewrite (passFilters_dims els r vinfo opts Hv), Hi.
    unfold TierDim. intuition congruence.
Qed.

Lemma C7_effective_tier_witness :
  stierOf ex_max_threads
    {| default_value := Some "auto"; tier := Some "production";
       changed_from_prev := false |} = "production"
  /\ listFilter ex_els ex_max_threads = true.
Proof.
  pose proof (C7_effective_tier ex_els ex_max_threads
                {| default_value := Some "auto"; tier := Some "production";
                   changed_from_prev := false |}) as H.
  destruct H as (Ht & _ & Hl & _); [vm_compute; reflexivity|].
  split.
  - apply Ht; [reflexivity | discriminate].
  - apply Hl. vm_compute. repeat split. right. repeat constructor.
Defined.

(** ** Toggle groups *)

Lemma deselect_all_none (g : list Toggle) :
  List.filter selected (map (setSelected false) g) = [].
Proof. induction g as [|b g IH]; simpl; auto. Qed.

Lemma solo_selected (g : list Toggle) (i : nat) (b : Toggle) :
  g !! i = Some b ->
  List.filter selected (click true i g) = [setSelected true b].
Proof.
  unfold click. revert i. induction g as [|a g IH]; intros [|i] Hi;
    simpl in Hi; try discriminate.
  - injection Hi as ->. simpl. now rewrite deselect_all_none.
  - simpl. now apply IH.
Qed.

Lemma setSelected_values (sel : bool) (g : list Toggle) :
  map value (map (setSelected sel) g) = map value g.
Proof. induction g as [|a g IH]; simpl; f_equal; auto. Qed.

Lemma alter_values (f : Toggle -> Toggle) (g : list Toggle) (i : nat) :
  (forall b, value (f b) = value b) ->
  map value (alter f i g) = map value g.
Proof.
  intros Hf. revert i. induction g as [|a g IH]; intros [|i]; simpl; f_equal; auto.
  apply IH.
Qed.

Lemma click_values (solo : bool) (g : list Toggle) (i : nat) :
  map value (click solo i g) = map value g.
Proof.
  unfold click. destruct solo.
  - rewrite alter_values by reflexivity. apply setSelected_values.
  - now rewrite alter_values.
Qed.

(** C9. In a toggle group in any selection state, a click with the solo
    modifier on one of its buttons leaves the buttons and their values in
    place, and exactly one button selected: the clicked one. *)
Theorem C9_solo_click (g : list Toggle) (i : nat) (b : Toggle) :
  g !! i = Some b ->
  map value (click true i g) = map value g
  /\ List.length (List.filter selected (click true i g)) = 1
  /\ getSelectedValues (Some (click true i g)) = [value b]
  /\ forall j c, click true i g !! j = Some c -> (selected c = true <-> j = i).
Proof.
  intros Hi. split; [apply click_values|]. split; [|split].
  - now rewrite (solo_selected g i b Hi).
  - unfold getSelectedValues. now rewrite (solo_selected g i b Hi).
  - clear b Hi. unfold click. revert i. induction g as [|a g IH]; intros i j c.
    + destruct i; discriminate.
    + destruct i as [|i], j as [|j]; simpl.
      * intros [= <-]. simpl. tauto.
      * intros Hj. apply list_elem_of_lookup_2 in Hj.
        apply list_elem_of_In, in_map_iff in Hj as (x & <- & _).
        simpl. split; [discriminate | lia].
      * intros [= <-]. simpl. split; [discriminate | lia].
      * intros Hj. rewrite (IH i j c Hj). lia.
Qed.

Lemma C9_solo_click_witness :
  map value (click true 1 (tierGroup ex_els)) = ["production"; "beta"; "experimental"]
  /\ List.length (List.filter selected (click true 1 (tierGroup ex_els))) = 1
  /\ getSelectedValues (Some (click true 1 (tierGroup ex_els))) = ["beta"].
Proof.
  destruct (C9_solo_click (tierGroup ex_els) 1 (mkToggle "beta" false) eq_refl)
    as (Hv & Hn & Hs & _).
  split; [exact Hv | split; [exact Hn | exact Hs]].
Defined.

(** ** Sets built from arrays *)

Lemma elem_of_neq_filter (x y : string) (l : list string) :
  y ∈ List.filter (fun z => negb (String.eqb z x)) l <-> y ∈ l /\ y <> x.
Proof.
  rewrite !list_elem_of_In, filter_In, negb_true_iff, String.eqb_neq. reflexivity.
Qed.

Lemma elem_of_newSet (l : list string) x : x ∈ newSet l <-> x ∈ l.
Proof.
  induction l as [|a l IH]; simpl; [reflexivity|].
  rewrite !elem_of_cons, elem_of_neq_filter, IH.
  destruct (decide (x = a)); tauto.
Qed.

Lemma NoDup_neq_filter (x : string) (l : list string) :
  NoDup l -> NoDup (List.filter (fun z => negb (String.eqb z x)) l).
Proof.
  induction 1 as [|a l Ha Hl IH]; simpl; [constructor|].
  destruct (negb (String.eqb a x)); [|exact IH].
  constructor; [|exact IH]. rewrite elem_of_neq_filter. tauto.
Qed.

Lemma NoDup_newSet (l : list string) : NoDup (newSet l).
Proof.
  induction l as [|a l IH]; simpl; constructor.
  - rewrite elem_of_neq_filter. tauto.
  - now apply NoDup_neq_filter.
Qed.

Lemma neq_filter_id (x : string) (l : list string) :
  x ∉ l -> List.filter (fun z => negb (String.eqb z x)) l = l.
Proof.
  induction l as [|a l IH]; simpl; [reflexivity|].
  rewrite not_elem_of_cons. intros [Hxa Hx].
  assert (String.eqb a x = false) as -> by (apply String.eqb_neq; congruence).
  simpl. now rewrite IH.
Qed.

Lemma newSet_NoDup (l : list string) : NoDup l -> newSet l = l.
Proof.
  induction 1 as [|a l Ha Hl IH]; simpl; [reflexivity|].
  now rewrite IH, neq_filter_id.
Qed.


(** ** Topic selection across a rebuild *)


Lemma selected_sub (prev : list Toggle) x :
  x ∈ getSelectedValues (Some prev) -> x ∈ map value prev.
Proof.
  unfold getSelectedValues. rewrite !list_elem_of_In, !in_map_iff.
  intros (b & <- & Hb). apply filter_In in Hb as [Hb _]. now exists b.
Qed.




Lemma filter_has_nil (topics : list string) : List.filter (has []) topics = [].
Proof. induction topics as [|t topics IH]; simpl; auto. Qed.





(** The three branches of the policy on concrete groups. *)
Example topicSelection_all :
  topicSelection [mkToggle "a" true; mkToggle "b" true] ["b"; "c"] = ["b"; "c"].
Proof. vm_compute. reflexivity. Qed.

Example topicSelection_none :
  topicSelection [mkToggle "a" false; mkToggle "b" false] ["b"; "c"] = [].
Proof. vm_compute. reflexivity. Qed.

Example topicSelection_some :
  topicSelection [mkToggle "a" true; mkToggle "b" true; mkToggle "d" false]
                 ["b"; "c"] = ["b"]
  /\ topicSelection [mkToggle "a" true; mkToggle "d" false] ["b"; "c"] = ["b"; "c"].
Proof. vm_compute. split; reflexivity. Qed.

(** ** All topics selected, or none *)

Lemma selected_all_values (g : list Toggle) :
  getSelectedValues (Some (setAllSelected g true)) = map value g.
Proof.
  unfold getSelectedValues, setAllSelected.
  induction g as [|b g IH]; simpl; f_equal; auto.
Qed.

Lemma selected_none_values (g : list Toggle) :
  getSelectedValues (Some (setAllSelected g false)) = [].
Proof. unfold getSelectedValues, setAllSelected. now rewrite deselect_all_none. Qed.

Lemma setAllSelected_length (g : list Toggle) sel :
  List.length (setAllSelected g sel) = List.length g.
Proof. unfold setAllSelected. apply length_map. Qed.

Lemma applyTopicFilter_all (els : Controls) (g : list Toggle) :
  NoDup (map value g) ->
  applyTopicFilterOf (withTopicGroup (Some (setAllSelected g true)) els) = false.
Proof.
  intros Hn. unfold applyTopicFilterOf, allTopicCountOf.
  cbn [topicGroup withTopicGroup].
  rewrite selected_all_values, (newSet_NoDup _ Hn), setAllSelected_length, length_map.
  rewrite Nat.ltb_irrefl. apply andb_false_r.
Qed.

Lemma applyTopicFilter_none (els : Controls) (g : list Toggle) :
  applyTopicFilterOf (withTopicGroup (Some (setAllSelected g false)) els) = false.
Proof.
  unfold applyTopicFilterOf. cbn [topicGroup withTopicGroup].
  now rewrite selected_none_values.
Qed.

(** Without a topic restriction the filter does not look at the topic
    group at all. *)
Lemma listFilter_unrestricted (els : Controls) (g1 g2 : option (list Toggle)) s :
  applyTopicFilterOf (withTopicGroup g1 els) = false ->
  applyTopicFilterOf (withTopicGroup g2 els) = false ->
  listFilter (withTopicGroup g1 els) s = listFilter (withTopicGroup g2 els) s.
Proof.
  intros H1 H2. unfold listFilter. rewrite H1, H2. reflexivity.
Qed.

(** C3. Selecting every option of the topic group gives the same rendered
    list as selecting none, for every dataset and every state of the other
    controls: the topic restriction applies only to a selection that is
    neither empty nor the whole group. *)
Theorem C3_all_topics_is_no_topics (data : option Dataset) (els : Controls)
    (g : list Toggle) :
  NoDup (map value g) ->
  applyTopicFilterOf (withTopicGroup (Some (setAllSelected g true)) els) = false
  /\ applyTopicFilterOf (withTopicGroup (Some (setAllSelected g false)) els) = false
  /\ renderList data (withTopicGroup (Some (setAllSelected g true)) els)
     = renderList data (withTopicGroup (Some (setAllSelected g false)) els).
Proof.
  intros Hn.
  pose proof (applyTopicFilter_all els g Hn) as Hall.
  pose proof (applyTopicFilter_none els g) as Hnone.
  split; [exact Hall | split; [exact Hnone |]].
  unfold renderList.
  change (getSelectedScopes (withTopicGroup (Some (setAllSelected g true)) els))
    with (getSelectedScopes els).
  change (getSelectedScopes (withTopicGroup (Some (setAllSelected g false)) els))
    with (getSelectedScopes els).
  apply filter_ext. intros s. now apply listFilter_unrestricted.
Qed.

Lemma C3_all_topics_is_no_topics_witness :
  renderList (Some (loadData ex_doc))
    (withTopicGroup
       (Some (setAllSelected [mkToggle "Performance" true; mkToggle "Storage" false] true))
       ex_els)
  = renderList (Some (loadData ex_doc))
      (withTopicGroup
         (Some (setAllSelected [mkToggle "Performance" true; mkToggle "Storage" false] false))
         ex_els).
Proof.
  apply (C3_all_topics_is_no_topics (Some (loadData ex_doc)) ex_els
           [mkToggle "Performance" true; mkToggle "Storage" false]).
  apply (bool_decide_unpack _). vm_compute. exact I.
Defined.

(** ** Loading twice *)

Lemma enrichOne_idem (scope : string) (s : Setting) :
  enrichOne scope (enrichOne scope s) = enrichOne scope s.
Proof.
  destruct s.
  cbv beta iota zeta delta
    [enrichOne set_subsystems set_hayLower set_scope hayOf
     name type_ category description cloud_only alias flags versions mentions
     subsystems _scope _hayLower _subsystems].
  destruct (isEmpty scope); cbv iota; reflexivity.
Qed.

(** The derived fields are computed from the record's own fields: what
    they held before does not matter. *)
Lemma enrichOne_recomputes (scope : string) (s : Setting) a b c :
  isEmpty scope = false ->
  enrichOne scope (set_scope a (set_hayLower b (set_subsystems c s)))
  = enrichOne scope s.
Proof.
  intros Hs. destruct s.
  cbv beta iota zeta delta
    [enrichOne set_subsystems set_hayLower set_scope hayOf
     name type_ category description cloud_only alias flags versions mentions
     subsystems _scope _hayLower _subsystems].
  rewrite Hs. cbv iota. reflexivity.
Qed.

Lemma enrich_idem (arr : option (list Setting)) (scope : string) :
  enrich (enrich arr scope) scope = enrich arr scope.
Proof.
  destruct arr as [l|]; [|reflexivity]. unfold enrich. f_equal.
  rewrite map_map. apply map_ext. intros s. apply enrichOne_idem.
Qed.

Lemma loadData_idem (doc : Dataset) : loadData (loadData doc) = loadData doc.
Proof.
  unfold loadData.
  cbn [data_versions settings merge_tree_settings format_settings].
  now rewrite !enrich_idem.
Qed.

(** C8. The loader's enrichment is idempotent: run over records it has
    already enriched it recomputes the same scope tag, haystack and
    subsystem tags (whatever those fields held), so a dataset loaded twice
    renders, for every filter state, the same items in the same order. *)
Theorem C8_enrichment_idempotent :
  (forall scope s, enrichOne scope (enrichOne scope s) = enrichOne scope s)
  /\ (forall s a b c,
        enrichOne "session" (set_scope a (set_hayLower b (set_subsystems c s)))
        = enrichOne "session" s)
  /\ (forall doc, loadData (loadData doc) = loadData doc)
  /\ (forall doc els,
        renderList (Some (loadData (loadData doc))) els
        = renderList (Some (loadData doc)) els).
Proof.
  split; [exact enrichOne_idem|]. split; [|split].
  - intros s a b c. now apply enrichOne_recomputes.
  - exact loadData_idem.
  - intros doc els. now rewrite loadData_idem.
Qed.

(** The enriched example record: scope, haystack and inferred tags. *)
Example enrich_max_threads :
  let s := enrichOne "session" ex_max_threads in
  _scope s = Some "session"
  /\ _hayLower s = Some "max_threads the maximum number of query processing threads."
  /\ _subsystems s = Some ["Resource Control"].
Proof. vm_compute. repeat split. Qed.

(** ** URL state *)

Lemma splitComma_nonempty s : splitComma s <> [].
Proof.
  destruct s as [|c r]; simpl; [discriminate|].
  destruct (isComma c); [discriminate|]. now destruct (splitComma r).
Qed.

Lemma splitComma_plain s : anyChar isComma s = false -> splitComma s = [s].
Proof.
  induction s as [|c r IH]; simpl; [reflexivity|].
  intros H. apply orb_false_iff in H as [Hc Hr]. rewrite Hc, (IH Hr). reflexivity.
Qed.

Lemma splitComma_app a r :
  anyChar isComma a = false ->
  splitComma (a ++ String "," r) = a :: splitComma r.
Proof.
  induction a as [|c a IH]; simpl; [reflexivity|].
  intros H. apply orb_false_iff in H as [Hc Ha]. rewrite Hc, (IH Ha). reflexivity.
Qed.

Lemma split_join (arr : list string) :
  arr <> [] -> Forall (fun v => anyChar isComma v = false) arr ->
  splitComma (joinComma arr) = arr.
Proof.
  unfold joinComma. induction arr as [|a arr IH]; [congruence|].
  intros _ Hall. apply Forall_cons in Hall as [Ha Hall].
  destruct arr as [|b arr].
  - simpl. now apply splitComma_plain.
  - change (String.concat "," (a :: b :: arr))
      with (a ++ String "," (String.concat "," (b :: arr))).
    rewrite splitComma_app by assumption. f_equal. now apply IH.
Qed.

Lemma joinComma_nonempty (arr : list string) :
  arr <> [] -> Forall (fun v => isEmpty v = false) arr ->
  isEmpty (joinComma arr) = false.
Proof.
  unfold joinComma. destruct arr as [|a arr]; [congruence|].
  intros _ Hall. apply Forall_cons in Hall as [Ha _].
  destruct a as [|c a]; [discriminate|]. now destruct arr.
Qed.

Lemma urlSafe_parts v :
  urlSafe v = true ->
  isEmpty v = false /\ anyChar isComma v = false /\ trim v = v.
Proof.
  unfold urlSafe. rewrite !andb_true_iff, !negb_true_iff, String.eqb_eq. tauto.
Qed.

Lemma trimmed_values (arr : list string) :
  Forall (fun v => urlSafe v = true) arr ->
  List.filter (fun x => negb (isEmpty x)) (map trim arr) = arr.
Proof.
  induction 1 as [|v l Hv Hl IH]; [reflexivity|].
  apply urlSafe_parts in Hv as (He & _ & Ht).
  simpl. rewrite Ht, He. simpl. now f_equal.
Qed.

(** A list written with [setList] is read back by [getList]. *)
Lemma getList_setList (k : string) (arr : list string) (sp : gmap string string) :
  arr <> [] -> Forall (fun v => urlSafe v = true) arr ->
  getList (setList k arr sp) k = Some arr.
Proof.
  intros Hne Hall. unfold getList, setList.
  destruct arr as [|a arr]; [congruence|]. rewrite lookup_insert_eq.
  rewrite joinComma_nonempty, split_join; try assumption.
  - f_equal. now apply trimmed_values.
  - eapply Forall_impl; [exact Hall|]. intros v Hv. now apply urlSafe_parts in Hv.
  - eapply Forall_impl; [exact Hall|]. intros v Hv. now apply urlSafe_parts in Hv.
Qed.

Lemma getList_setList_ne k k' arr sp :
  k <> k' -> getList (setList k arr sp) k' = getList sp k'.
Proof.
  intros Hk. unfold getList, setList. destruct arr.
  - now rewrite lookup_delete_ne.
  - now rewrite lookup_insert_ne.
Qed.

Lemma lookup_setList_ne k k' arr (sp : gmap string string) :
  k <> k' -> setList k arr sp !! k' = sp !! k'.
Proof.
  intros Hk. unfold setList. destruct arr.
  - now rewrite lookup_delete_ne.
  - now rewrite lookup_insert_ne.
Qed.

Lemma lookup_setOrDelete k b v (sp : gmap string string) :
  setOrDelete k b v sp !! k = if b then Some v else None.
Proof.
  unfold setOrDelete. destruct b; [apply lookup_insert_eq | apply lookup_delete_eq].
Qed.

Lemma lookup_setOrDelete_ne k k' b v (sp : gmap string string) :
  k <> k' -> setOrDelete k b v sp !! k' = sp !! k'.
Proof.
  intros Hk. unfold setOrDelete. destruct b.
  - now rewrite lookup_insert_ne.
  - now rewrite lookup_delete_ne.
Qed.

Lemma getList_setOrDelete_ne k k' b v sp :
  k <> k' -> getList (setOrDelete k b v sp) k' = getList sp k'.
Proof. intros Hk. unfold getList. now rewrite lookup_setOrDelete_ne. Qed.

Ltac url_other :=
  repeat first
    [ rewrite lookup_setOrDelete_ne by done
    | rewrite lookup_setList_ne by done
    | rewrite getList_setOrDelete_ne by done
    | rewrite getList_setList_ne by done ].

(** C4 (as amended). When every facet group has a selection and every
    selected value can be carried by a comma-separated list (not empty, no
    comma, no white space at its ends), writing the state to the URL and
    parsing the URL gives back the selected scopes, topics, tiers and
    special flags in order, the selected version, the changed-only flag,
    and the query with the white space around it removed. *)
Theorem C4_url_round_trip (els : Controls) (sp : gmap string string) :
  getSelectedValues (Some (scopeGroup els)) <> [] ->
  getSelectedValues (topicGroup els) <> [] ->
  getSelectedValues (Some (tierGroup els)) <> [] ->
  getSelectedValues (specialGroup els) <> [] ->
  Forall (fun v => urlSafe v = true) (getSelectedValues (Some (scopeGroup els))) ->
  Forall (fun v => urlSafe v = true) (getSelectedValues (topicGroup els)) ->
  Forall (fun v => urlSafe v = true) (getSelectedValues (Some (tierGroup els))) ->
  Forall (fun v => urlSafe v = true) (getSelectedValues (specialGroup els)) ->
  parseStateFromUrl (updateUrlFromState els sp)
  = {| st_q := trim (searchInput els);
       st_v := versionSelect els;
       st_scopes := Some (getSelectedValues (Some (scopeGroup els)));
       st_topics := Some (getSelectedValues (topicGroup els));
       st_tiers := Some (getSelectedValues (Some (tierGroup els)));
       st_special := Some (getSelectedValues (specialGroup els));
       st_changed := changedOnly els |}.
Proof.
  intros Hs Ht Hi Hp Fs Ft Fi Fp.
  unfold parseStateFromUrl, updateUrlFromState. f_equal.
  - url_other. rewrite lookup_setOrDelete.
    destruct (searchInput els) as [|c q]; [reflexivity|].
    cbn [isEmpty negb andb]. now destruct (trim (String c q)).
  - url_other. rewrite lookup_setOrDelete. now destruct (versionSelect els).
  - url_other. now apply getList_setList.
  - url_other. now apply getList_setList.
  - url_other. now apply getList_setList.
  - url_other. now apply getList_setList.
  - rewrite lookup_setOrDelete. now destruct (changedOnly els).
Qed.

Lemma C4_url_round_trip_witness :
  parseStateFromUrl (updateUrlFromState ex_url_els ∅)
  = {| st_q := "max_ Threads"; st_v := "25.8";
       st_scopes := Some ["session"; "format"];
       st_topics := Some ["Performance"; "Resource Control"];
       st_tiers := Some ["production"]; st_special := Some ["refs"];
       st_changed := true |}.
Proof.
  apply (C4_url_round_trip ex_url_els ∅);
    first [ discriminate | repeat constructor ].
Defined.

(** C4, without the proviso on the values the round trip fails: a
    selected topic whose name holds a comma comes back as two topics, and
    a query typed with a leading blank comes back without it. *)
Lemma C4_counterexample :
  getSelectedValues (topicGroup ex_comma_els) = ["Input, Output"]
  /\ st_topics (parseStateFromUrl (updateUrlFromState ex_comma_els ∅))
     = Some ["Input"; "Output"]
  /\ searchInput ex_comma_els = " max"
  /\ st_q (parseStateFromUrl (updateUrlFromState ex_comma_els ∅)) = "max"
  /\ st_topics (parseStateFromUrl (updateUrlFromState ex_comma_els ∅))
     <> Some (getSelectedValues (topicGroup ex_comma_els)).
Proof. vm_compute. repeat split. discriminate. Qed.

(** ** Search tokens *)

Lemma append_cons c (a b : string) : String c a ++ b = String c (a ++ b).
Proof. reflexivity. Qed.




Lemma span_app_eq p s a b : span p s = (a, b) -> s = a ++ b.
Proof.
  revert a b. induction s as [|c s IH]; simpl; intros a b H.
  - now injection H as <- <-.
  - destruct (p c).
    + destruct (span p s) as [a' b'] eqn:E. injection H as <- <-.
      rewrite append_cons. f_equal. now apply IH.
    + now injection H as <- <-.
Qed.


Lemma exec_eq s :
  exec s = match matchHere s with
           | Some m => Some m
           | None => match s with
                     | EmptyString => None
                     | String _ r => exec r
                     end
           end.
Proof. destruct s; reflexivity. Qed.

Lemma tokensLoop_eq fuel s :
  tokensLoop fuel s
  = match exec s with
    | None => Some []
    | Some (m, rest) =>
        match fuel with
        | O => None
        | S fuel' =>
            let tok := trim (orElse (group1 m) (orElse (group2 m) "")) in
            match tokensLoop fuel' rest with
            | None => None
            | Some toks => Some (if isEmpty tok then toks else tok :: toks)
            end
        end
    end.
Proof. destruct fuel; reflexivity. Qed.



(** Lower-casing a character changes neither its being white space nor
    its being a quote, and is idempotent. *)
Lemma charToLower_space c : isSpace (charToLower c) = isSpace c.
Proof. destruct c as [[] [] [] [] [] [] [] []]; reflexivity. Qed.



Lemma charToLower_idem c : charToLower (charToLower c) = charToLower c.
Proof. destruct c as [[] [] [] [] [] [] [] []]; reflexivity. Qed.

Lemma toLowerCase_idem s : toLowerCase (toLowerCase s) = toLowerCase s.
Proof.
  induction s as [|c s IH]; simpl; [reflexivity|].
  now rewrite charToLower_idem, IH.
Qed.

Lemma toLowerCase_app a b : toLowerCase (a ++ b) = toLowerCase a ++ toLowerCase b.
Proof.
  induction a as [|c a IH]; [reflexivity|].
  rewrite append_cons. simpl. now rewrite IH, append_cons.
Qed.

Lemma isEmpty_lower s : isEmpty (toLowerCase s) = isEmpty s.
Proof. now destruct s. Qed.



Lemma trimStart_lower s : trimStart (toLowerCase s) = toLowerCase (trimStart s).
Proof.
  induction s as [|c s IH]; simpl; [reflexivity|].
  rewrite charToLower_space. now destruct (isSpace c).
Qed.

Lemma trimEnd_lower s : trimEnd (toLowerCase s) = toLowerCase (trimEnd s).
Proof.
  induction s as [|c s IH]; simpl; [reflexivity|].
  rewrite charToLower_space, IH, isEmpty_lower.
  now destruct (isSpace c && isEmpty (trimEnd s)).
Qed.

Lemma trim_lower s : trim (toLowerCase s) = toLowerCase (trim s).
Proof. unfold trim. now rewrite trimStart_lower, trimEnd_lower. Qed.





Lemma trimEnd_idem s : trimEnd (trimEnd s) = trimEnd s.
Proof.
  induction s as [|c s IH]; simpl; [reflexivity|].
  destruct (isSpace c && isEmpty (trimEnd s)) eqn:E; [reflexivity|].
  simpl. now rewrite IH, E.
Qed.

Lemma trimStart_trimEnd s :
  trimStart s = s -> trimStart (trimEnd s) = trimEnd s.
Proof.
  destruct s as [|c s]; simpl; [reflexivity|].
  destruct (isSpace c) eqn:Ec.
  - intros H. exfalso. clear -H.
    assert (Hlen : forall t, String.length (trimStart t) <= String.length t).
    { induction t as [|x t IHt]; simpl; [lia|]. destruct (isSpace x); simpl; lia. }
    specialize (Hlen s). rewrite H in Hlen. simpl in Hlen. lia.
  - intros _. simpl. now rewrite Ec.
Qed.

Lemma trimStart_idem s : trimStart (trimStart s) = trimStart s.
Proof.
  induction s as [|c s IH]; simpl; [reflexivity|].
  destruct (isSpace c) eqn:Ec; [exact IH|]. simpl. now rewrite Ec.
Qed.

Lemma trim_idem s : trim (trim s) = trim s.
Proof.
  unfold trim. rewrite (trimStart_trimEnd (trimStart s)) by apply trimStart_idem.
  apply trimEnd_idem.
Qed.

(** Reading the input through [getSearchTokens] lower-cases and trims it a
    second time, which changes nothing. *)
Lemma getSearchTokens_eq els :
  getSearchTokens els = parseQueryToTokens (searchInput els).
Proof.
  unfold getSearchTokens, parseQueryToTokens.
  assert (trim (toLowerCase (trim (toLowerCase (searchInput els))))
          = trim (toLowerCase (searchInput els))) as ->; [|reflexivity].
  rewrite (trim_lower (searchInput els)), toLowerCase_idem.
  now rewrite (trim_lower (trim (searchInput els))), trim_idem.
Qed.

(** *** Matching a well-formed part *)








(** *** The whole query *)










Lemma orElse_some hay : orElse (Some hay) "" = hay.
Proof. now destruct hay. Qed.




(** The loop itself on the example, and on text that is not made of
    well-formed parts: an unclosed quote is part of a word, and a phrase of
    blanks gives no token. *)
Example tokens_example :
  parseQueryToTokens exampleQuery = ["foo bar"; "baz"]
  /\ parseQueryToTokens (String dquote "foo bar") = [String dquote "foo"; "bar"]
  /\ parseQueryToTokens (quoted "  " ++ " x") = ["x"].
Proof. vm_compute. repeat split. Qed.

(** ** Facet counts *)

(** [passFilters] never reads the special pills. *)
Lemma passFilters_ignores_special els g s opts :
  passFilters (withSpecialGroup g els) s opts = passFilters els s opts.
Proof. reflexivity. Qed.

Lemma scopeCounts_ignore_special data els g :
  scopeCounts data (withSpecialGroup g els) = scopeCounts data els.
Proof. reflexivity. Qed.

(** C5, on the code. With the Cloud-only pill pressed and everything else
    unrestricted, no record of the example dataset is visible (none is
    cloud-only), yet the counts computed for the pills are those of the
    unfiltered list: 1 for scope session, 1 for topic Performance, 1 for
    tier production.  The counts do not apply the special-flag filters that
    the list applies. *)
Theorem C5_counts_ignore_special :
  let data := Some (loadData ex_doc) in
  let items := combinedDataset data (getSelectedScopes ex_cloud_els) in
  renderList data ex_cloud_els = []
  /\ map name (renderList data (withSpecialGroup None ex_cloud_els)) = ["max_threads"]
  /\ countOf (scopeCounts data ex_cloud_els) "session" = 1
  /\ countOf (topicCount ex_cloud_els items) "Performance" = 1
  /\ countOf (tierCount ex_cloud_els items) "production" = 1.
Proof. vm_compute. repeat split. Qed.

(** A record whose category is also among its inferred tags is counted
    twice for that topic. *)
Example topicCount_twice :
  let data := Some (loadData {| data_versions := ["25.8"];
                                settings := Some [ex_kafka];
                                merge_tree_settings := None;
                                format_settings := None |}) in
  let els := withSpecialGroup None ex_cloud_els in
  let items := combinedDataset data (getSelectedScopes els) in
  List.length (renderList data els) = 1
  /\ countOf (topicCount els items) "Kafka" = 2.
Proof. vm_compute. split; reflexivity. Qed.

(** ** The rebuilt topic group has distinct options *)

Lemma buildToggleGroup_values options sel :
  map value (buildToggleGroup options sel) = map fst options.
Proof.
  unfold buildToggleGroup. induction options as [|o options IH]; simpl; f_equal; auto.
Qed.

Section Sorting.
Variable localeSort : list string -> list string.
Hypothesis localeSort_perm : forall l, localeSort l ≡ₚ l.

(** Whatever the controls were, the topic group [updateFacetCounts]
    leaves behind has no value twice: the hypothesis of the theorems on
    topic groups holds after every recomputation. *)
Lemma updateFacetCounts_topics_NoDup (d : Dataset) (els : Controls) g :
  topicGroup (updateFacetCounts localeSort (Some d) els) = Some g ->
  NoDup (map value g).
Proof.
  unfold updateFacetCounts. cbn zeta.
  set (els1 := withScopeGroup _ els).
  change (topicGroup els1) with (topicGroup els).
  destruct (topicGroup els) as [prev|] eqn:E.
  - cbn [topicGroup withTierGroup withTopicGroup]. intros [= <-].
    rewrite buildToggleGroup_values, map_map. cbn [fst].
    rewrite map_id. rewrite localeSort_perm. apply NoDup_newSet.
  - cbn [topicGroup withTierGroup]. subst els1.
    cbn [topicGroup withScopeGroup]. rewrite E. discriminate.
Qed.

End Sorting.

(** * Further properties of the code *)

(** ** Topic colours *)

Lemma hashStep_range h c : (0 <= hashStep h c < 2 ^ 32)%Z.
Proof. unfold hashStep. apply Z.mod_pos_bound. reflexivity. Qed.

Lemma hashFrom_range s : forall h,
  (0 <= h < 2 ^ 32)%Z -> (0 <= hashFrom h s < 2 ^ 32)%Z.
Proof.
  induction s as [|c r IH]; intros h Hh; simpl; [exact Hh|].
  apply IH, hashStep_range.
Qed.

(** X1. The colour of a topic is always one of the seven of the palette:
    the running hash stays an unsigned 32-bit number, the index is between
    0 and 6, and the class is one of tc-0 .. tc-6; a missing or empty name
    gets index 0. *)
Theorem topicColor_in_palette (name : option string) :
  (forall s, 0 <= hashFrom 0 s < 2 ^ 32)%Z
  /\ (0 <= topicColorIndex name < 7)%Z
  /\ topicColorClass name ∈ ["tc-0"; "tc-1"; "tc-2"; "tc-3"; "tc-4"; "tc-5"; "tc-6"]
  /\ topicColorIndex None = 0%Z /\ topicColorIndex (Some "") = 0%Z.
Proof.
  assert (Hi : (0 <= topicColorIndex name < 7)%Z).
  { unfold topicColorIndex. destruct name as [s|]; [|lia].
    destruct (isEmpty s); [lia|]. apply Z.mod_pos_bound. lia. }
  split; [intros s; apply hashFrom_range; lia|].
  split; [exact Hi|]. split; [|split; reflexivity].
  unfold topicColorClass.
  assert (H : (topicColorIndex name = 0 \/ topicColorIndex name = 1
              \/ topicColorIndex name = 2 \/ topicColorIndex name = 3
              \/ topicColorIndex name = 4 \/ topicColorIndex name = 5
              \/ topicColorIndex name = 6)%Z) by lia.
  clear Hi.
  destruct H as [-> | [-> | [-> | [-> | [-> | [-> | ->]]]]]];
    vm_compute; set_solver.
Qed.

(** ** Escaping *)

Lemma anyChar_app p a b : anyChar p (a ++ b) = anyChar p a || anyChar p b.
Proof.
  induction a as [|c a IH]; [reflexivity|].
  rewrite append_cons. simpl. now rewrite IH, orb_assoc.
Qed.

Lemma escapeChar_clean c : anyChar isMarkup (escapeChar c) = false.
Proof. destruct c as [[] [] [] [] [] [] [] []]; reflexivity. Qed.

Lemma escapeChar_plain c :
  isMarkup c = false -> Ascii.eqb c "&" = false -> escapeChar c = String c "".
Proof. destruct c as [[] [] [] [] [] [] [] []]; (reflexivity || discriminate). Qed.

(** Either one of the five characters that are replaced, or a character
    that stays as it is. *)
Lemma escapeChar_cases c :
  (c = "&" \/ c = "<" \/ c = ">" \/ c = ascii_of_nat 34 \/ c = "'")%char
  \/ (escapeChar c = String c "" /\ c <> "&"%char).
Proof.
  destruct c as [[] [] [] [] [] [] [] []];
    first [ right; split; [reflexivity | discriminate]
          | left; vm_compute; auto 6 ].
Qed.

Lemma escapeChar_inj c1 c2 x y :
  escapeChar c1 ++ x = escapeChar c2 ++ y -> c1 = c2 /\ x = y.
Proof.
  destruct (escapeChar_cases c1) as [H1 | [H1 N1]],
           (escapeChar_cases c2) as [H2 | [H2 N2]].
  - destruct H1 as [-> | [-> | [-> | [-> | ->]]]],
             H2 as [-> | [-> | [-> | [-> | ->]]]];
      vm_compute; intros H; first [discriminate H | now injection H as ->].
  - rewrite H2. destruct H1 as [-> | [-> | [-> | [-> | ->]]]];
      vm_compute; intros H; injection H as H _; congruence.
  - rewrite H1. destruct H2 as [-> | [-> | [-> | [-> | ->]]]];
      vm_compute; intros H; injection H as H _; congruence.
  - rewrite H1, H2. rewrite !append_cons.
    change ("" ++ x) with x. change ("" ++ y) with y.
    intros H. now injection H as -> ->.
Qed.

Lemma escapeText_inj a : forall b, escapeText a = escapeText b -> a = b.
Proof.
  induction a as [|c a IH]; intros [|d b] H; simpl in H.
  - reflexivity.
  - exfalso. destruct (escapeChar_cases d) as [Hd | [Hd _]].
    + destruct Hd as [-> | [-> | [-> | [-> | ->]]]]; vm_compute in H; discriminate.
    + rewrite Hd in H. discriminate.
  - exfalso. destruct (escapeChar_cases c) as [Hc | [Hc _]].
    + destruct Hc as [-> | [-> | [-> | [-> | ->]]]]; vm_compute in H; discriminate.
    + rewrite Hc in H. discriminate.
  - apply escapeChar_inj in H as [-> H]. f_equal. now apply IH.
Qed.

Lemma escapeText_clean s : anyChar isMarkup (escapeText s) = false.
Proof.
  induction s as [|c s IH]; [reflexivity|].
  simpl. now rewrite anyChar_app, escapeChar_clean, IH.
Qed.

Lemma escapeText_plain s :
  anyChar isMarkup s = false -> anyChar (fun c => Ascii.eqb c "&") s = false ->
  escapeText s = s.
Proof.
  induction s as [|c s IH]; [reflexivity|]. simpl.
  intros Hm Ha. apply orb_false_iff in Hm as [Hc Hm]. apply orb_false_iff in Ha as [Hca Ha].
  now rewrite (escapeChar_plain c Hc Hca), IH.
Qed.

(** X2. The text [escapeHtml] returns holds no angle bracket, double quote
    or apostrophe; text without those and without an ampersand comes back
    unchanged; a missing text gives the empty text; and two texts are
    escaped to the same text only when they are equal. *)
Theorem escapeHtml_safe :
  (forall s, anyChar isMarkup (escapeHtml s) = false)
  /\ (forall s, anyChar isMarkup s = false ->
                anyChar (fun c => Ascii.eqb c "&") s = false ->
                escapeHtml (Some s) = s)
  /\ escapeHtml None = ""
  /\ (forall a b, escapeHtml (Some a) = escapeHtml (Some b) -> a = b).
Proof.
  split; [intros s; apply escapeText_clean|]. split; [|split; [reflexivity|]].
  - intros s Hm Ha. unfold escapeHtml. rewrite orElse_some. now apply escapeText_plain.
  - intros a b. unfold escapeHtml. rewrite !orElse_some. apply escapeText_inj.
Qed.

Lemma escapeHtml_safe_witness :
  escapeHtml (Some "max_threads = 8") = "max_threads = 8"
  /\ escapeHtml (Some "a<b & c") = "a&lt;b &amp; c".
Proof.
  destruct escapeHtml_safe as (_ & Hplain & _).
  split; [apply Hplain; reflexivity | reflexivity].
Defined.

(** ** Row anchors and class names *)




Lemma filterChars_clean p s : anyChar (fun c => negb (p c)) (filterChars p s) = false.
Proof.
  induction s as [|c s IH]; [reflexivity|]. simpl.
  destruct (p c) eqn:E; [|exact IH]. simpl. now rewrite E, IH.
Qed.

Lemma filterChars_id p s :
  anyChar (fun c => negb (p c)) s = false -> filterChars p s = s.
Proof.
  induction s as [|c s IH]; [reflexivity|]. simpl.
  intros H. apply orb_false_iff in H as [Hc Hs].
  apply negb_false_iff in Hc. now rewrite Hc, IH.
Qed.

Lemma isIdChar_lower c : isIdChar c = true -> charToLower c = c.
Proof. destruct c as [[] [] [] [] [] [] [] []]; (reflexivity || discriminate). Qed.

Lemma toLowerCase_idChars s :
  anyChar (fun c => negb (isIdChar c)) s = false -> toLowerCase s = s.
Proof.
  induction s as [|c s IH]; [reflexivity|]. simpl.
  intros H. apply orb_false_iff in H as [Hc Hs]. apply negb_false_iff in Hc.
  now rewrite (isIdChar_lower c Hc), IH.
Qed.



(** X4. The class suffix of a toggle button keeps only characters of
    [[a-z0-9_-]], is unchanged by a second pass, and for a value already
    made of such characters is the value itself. *)
Theorem classSuffix_shape (v : string) :
  anyChar (fun c => negb (isIdChar c)) (classSuffix v) = false
  /\ classSuffix (classSuffix v) = classSuffix v
  /\ (anyChar (fun c => negb (isIdChar c)) v = false -> classSuffix v = v).
Proof.
  assert (Hc : anyChar (fun c => negb (isIdChar c)) (classSuffix v) = false)
    by apply filterChars_clean.
  assert (Hid : forall w, anyChar (fun c => negb (isIdChar c)) w = false ->
                          classSuffix w = w).
  { intros w Hw. unfold classSuffix. rewrite (toLowerCase_idChars w Hw).
    now apply filterChars_id. }
  split; [exact Hc|]. split; [now apply Hid | apply Hid].
Qed.

Lemma classSuffix_shape_witness :
  classSuffix "session" = "session" /\ classSuffix "Resource Control" = "resourcecontrol".
Proof.
  split; [|reflexivity].
  destruct (classSuffix_shape "session") as (_ & _ & H). apply H. reflexivity.
Defined.

(** ** Theme *)

(** X5. After either theme operation the document theme is light or
    dark; what [toggleTheme] stores is what [applySavedTheme] restores on
    the next load; toggling changes the theme, and toggling twice brings
    back the theme a load had set. *)
Theorem theme_toggle_persists (t : Theme) :
  (dataTheme (applySavedTheme t) = Some "light" \/ dataTheme (applySavedTheme t) = Some "dark")
  /\ (dataTheme (toggleTheme t) = Some "light" \/ dataTheme (toggleTheme t) = Some "dark")
  /\ applySavedTheme (toggleTheme t) = toggleTheme t
  /\ dataTheme (toggleTheme (applySavedTheme t)) <> dataTheme (applySavedTheme t)
  /\ toggleTheme (toggleTheme (toggleTheme t)) = toggleTheme t
  /\ dataTheme (toggleTheme (toggleTheme (applySavedTheme t)))
     = dataTheme (applySavedTheme t)
  /\ (stored t = Some "light" <-> dataTheme (applySavedTheme t) = Some "light").
Proof.
  unfold applySavedTheme, toggleTheme. destruct t as [d st]. cbn [dataTheme stored].
  assert (Hcur : forall o, String.eqb (orElse o "dark") "dark" = true
                        \/ String.eqb (orElse o "dark") "dark" = false)
    by (intros o; destruct (String.eqb _ _); auto).
  repeat split.
  - destruct st as [s|]; [|now right]. destruct (String.eqb s "light"); auto.
  - destruct (String.eqb (orElse d "dark") "dark"); auto.
  - destruct (String.eqb (orElse d "dark") "dark"); reflexivity.
  - destruct st as [s|]; [destruct (String.eqb s "light")|]; simpl; discriminate.
  - destruct (String.eqb (orElse d "dark") "dark"); reflexivity.
  - destruct st as [s|]; [destruct (String.eqb s "light")|]; reflexivity.
  - intros [= ->]. reflexivity.
  - destruct st as [s|]; [|discriminate].
    destruct (String.eqb s "light") eqn:E; [|discriminate].
    apply String.eqb_eq in E. now subst.
Qed.

(** ** Plain clicks *)






(** ** Scopes *)

Lemma scopeSlice_ext s1 s2 k arr :
  has s1 k = has s2 k -> scopeSlice s1 k arr = scopeSlice s2 k arr.
Proof. intros H. unfold scopeSlice. now rewrite H. Qed.

Lemma combinedDataset_ext data s1 s2 :
  (forall k, k ∈ allScopes -> has s1 k = has s2 k) ->
  combinedDataset data s1 = combinedDataset data s2.
Proof.
  intros H. destruct data as [d|]; [|reflexivity]. unfold combinedDataset.
  rewrite (scopeSlice_ext s1 s2 "session"), (scopeSlice_ext s1 s2 "mergetree"),
    (scopeSlice_ext s1 s2 "format"); [reflexivity | | |];
    apply H; unfold allScopes; rewrite !elem_of_cons; auto.
Qed.

Lemma getSelectedScopes_eq els :
  getSelectedScopes els
  = match getSelectedValues (Some (scopeGroup els)) with
    | [] => allScopes
    | vals => vals
    end.
Proof. reflexivity. Qed.

Lemma listFilter_scopeGroup g els s :
  listFilter (withScopeGroup g els) s = listFilter els s.
Proof. reflexivity. Qed.

(** X7. Deselecting every scope shows the same list as selecting every
    scope: an empty scope selection stands for all three scopes. *)
Theorem no_scope_is_all_scopes (data : option Dataset) (els : Controls)
    (g : list Toggle) :
  (forall k, k ∈ allScopes -> k ∈ map value g) ->
  getSelectedScopes (withScopeGroup (setAllSelected g false) els) = allScopes
  /\ renderList data (withScopeGroup (setAllSelected g false) els)
     = renderList data (withScopeGroup (setAllSelected g true) els).
Proof.
  intros Hg.
  assert (Hnone : getSelectedScopes (withScopeGroup (setAllSelected g false) els)
                  = allScopes).
  { rewrite getSelectedScopes_eq. cbn [scopeGroup withScopeGroup].
    now rewrite selected_none_values. }
  split; [exact Hnone|]. unfold renderList. rewrite Hnone.
  rewrite (combinedDataset_ext data allScopes
             (getSelectedScopes (withScopeGroup (setAllSelected g true) els))).
  - apply filter_ext. intros s. now rewrite !listFilter_scopeGroup.
  - intros k Hk. rewrite getSelectedScopes_eq. cbn [scopeGroup withScopeGroup].
    rewrite selected_all_values. specialize (Hg k Hk).
    assert (has allScopes k = true) as -> by now apply has_true.
    symmetry. apply has_true.
    destruct (map value g); [now apply elem_of_nil in Hg | exact Hg].
Qed.

Lemma no_scope_is_all_scopes_witness :
  renderList (Some (loadData ex_doc))
    (withScopeGroup (setAllSelected (scopeGroup ex_els) false) ex_els)
  = renderList (Some (loadData ex_doc))
      (withScopeGroup (setAllSelected (scopeGroup ex_els) true) ex_els).
Proof.
  apply (no_scope_is_all_scopes (Some (loadData ex_doc)) ex_els (scopeGroup ex_els)).
  intros k Hk. vm_compute in Hk |- *. exact Hk.
Defined.

Lemma isEmpty_app_cons a c b : isEmpty (a ++ String c b) = false.
Proof. now destruct a. Qed.

Lemma hayOf_nonempty s : isEmpty (hayOf s) = false.
Proof.
  unfold hayOf. rewrite isEmpty_lower. apply isEmpty_app_cons.
Qed.

Lemma scoped_tags k s :
  _scope (scoped k s) = Some k /\ truthy (_hayLower (scoped k s)) = true
  /\ name (scoped k s) = name s /\ versions (scoped k s) = versions s.
Proof.
  destruct s as [n ty ca de co al fl ve me su sc ha ss].
  cbv beta iota zeta delta
    [scoped set_scope set_hayLower name type_ category description
     cloud_only alias flags versions mentions subsystems _scope _hayLower
     _subsystems].
  destruct (truthy ha) eqn:E; cbv beta iota; repeat split; try exact E.
  cbn [truthy]. now rewrite hayOf_nonempty.
Qed.

Lemma scopeSlice_tags scopes k arr s :
  s ∈ scopeSlice scopes k arr ->
  _scope s = Some k /\ k ∈ scopes /\ truthy (_hayLower s) = true.
Proof.
  unfold scopeSlice. destruct (has scopes k) eqn:Hk; [|intros H; now apply elem_of_nil in H].
  destruct arr as [l|]; [|intros H; now apply elem_of_nil in H].
  rewrite list_elem_of_In, in_map_iff. intros (r & <- & _).
  destruct (scoped_tags k r) as (Hs & Hh & _). apply has_true in Hk. auto.
Qed.

(** X8. Every record [combinedDataset] returns carries the tag of one of
    the three scopes, that scope was asked for, and its search haystack is
    not empty; without a loaded dataset the result is empty, and the result
    depends only on which of the three scopes are asked for, not on their
    order or repetition. *)
Theorem combinedDataset_tagged (data : option Dataset) (scopes : list string) :
  (forall s, s ∈ combinedDataset data scopes ->
     exists k, _scope s = Some k /\ k ∈ allScopes /\ k ∈ scopes
               /\ truthy (_hayLower s) = true)
  /\ combinedDataset None scopes = []
  /\ (forall scopes', (forall k, k ∈ allScopes -> (k ∈ scopes <-> k ∈ scopes')) ->
        combinedDataset data scopes = combinedDataset data scopes').
Proof.
  split; [|split; [reflexivity|]].
  - destruct data as [d|]; [|intros s H; now apply elem_of_nil in H].
    intros s. unfold combinedDataset. rewrite !elem_of_app.
    intros [H | [H | H]]; apply scopeSlice_tags in H as (Hs & Hk & Hh);
      eexists; (split; [exact Hs|]);
      (split; [unfold allScopes; rewrite !elem_of_cons; auto|]); auto.
  - intros scopes' H. apply combinedDataset_ext. intros k Hk.
    specialize (H k Hk). destruct (has scopes' k) eqn:E.
    + apply has_true. apply H. now apply has_true.
    + apply has_false. intros Hin. apply H in Hin. apply has_true in Hin. congruence.
Qed.

Lemma combinedDataset_tagged_witness :
  combinedDataset (Some (loadData ex_doc)) ["format"; "session"; "format"]
  = combinedDataset (Some (loadData ex_doc)) ["session"; "format"].
Proof.
  destruct (combinedDataset_tagged (Some (loadData ex_doc))
              ["format"; "session"; "format"]) as (_ & _ & H).
  apply H. intros k _. rewrite !elem_of_cons, !elem_of_nil. tauto.
Defined.

(** ** The list filter and the count filter *)

Lemma listFilter_none els s :
  versionEntry s (versionSelect els) = None -> listFilter els s = false.
Proof. intros Hv. unfold listFilter. rewrite Hv. now destruct (_ && _). Qed.

Lemma passFilters_none els s opts :
  versionEntry s (versionSelect els) = None -> passFilters els s opts = false.
Proof. intros Hv. unfold passFilters. now rewrite Hv. Qed.

Lemma bool_eq_iff (a b : bool) : (a = true <-> b = true) -> a = b.
Proof. destruct a, b; intuition congruence. Qed.

Lemma specialDim_off els s :
  has (specialSelOf els) "cloud" = false -> has (specialSelOf els) "refs" = false ->
  specialDim els s = true.
Proof. intros Hc Hr. unfold specialDim. now rewrite Hc, Hr. Qed.

Lemma listFilter_passFilters_agree els s :
  has (specialSelOf els) "cloud" = false -> has (specialSelOf els) "refs" = false ->
  listFilter els s = passFilters els s noOpts.
Proof.
  intros Hc Hr. destruct (versionEntry s (versionSelect els)) as [v|] eqn:Hv.
  - apply bool_eq_iff.
    rewrite (listFilter_dims els s v Hv), (passFilters_dims els s v noOpts Hv).
    rewrite (specialDim_off els s Hc Hr). cbn [ignoreTier ignoreTopics noOpts].
    intuition congruence.
  - now rewrite listFilter_none, passFilters_none.
Qed.

(** X9. Whatever the list shows passes the filter the counts use;
    switching a dimension off in the count filter never hides a record;
    and when neither special pill is pressed the two filters agree on
    every record, so the list is exactly the records the count filter
    accepts. *)
Theorem list_filter_within_count_filter (els : Controls) :
  (forall s, listFilter els s = true -> passFilters els s noOpts = true)
  /\ (forall s opts, passFilters els s noOpts = true -> passFilters els s opts = true)
  /\ (has (specialSelOf els) "cloud" = false ->
      has (specialSelOf els) "refs" = false ->
      (forall s, listFilter els s = passFilters els s noOpts)
      /\ forall data,
           renderList data els
           = List.filter (fun s => passFilters els s noOpts)
                         (combinedDataset data (getSelectedScopes els))).
Proof.
  split; [|split].
  - intros s. destruct (versionEntry s (versionSelect els)) as [v|] eqn:Hv.
    + rewrite (listFilter_dims els s v Hv), (passFilters_dims els s v noOpts Hv). tauto.
    + now rewrite listFilter_none.
  - intros s opts. destruct (versionEntry s (versionSelect els)) as [v|] eqn:Hv.
    + rewrite !(passFilters_dims els s v _ Hv). cbn [ignoreTier ignoreTopics noOpts].
      intuition congruence.
    + now rewrite passFilters_none.
  - intros Hc Hr. split; [intros s; now apply listFilter_passFilters_agree|].
    intros data. unfold renderList. apply filter_ext.
    intros s. now apply listFilter_passFilters_agree.
Qed.

Lemma list_filter_within_count_filter_witness :
  renderList (Some (loadData ex_doc)) ex_els
  = List.filter (fun s => passFilters ex_els s noOpts)
                (combinedDataset (Some (loadData ex_doc)) (getSelectedScopes ex_els)).
Proof.
  destruct (list_filter_within_count_filter ex_els) as (_ & _ & H).
  destruct H as [_ H]; [reflexivity | reflexivity | apply H].
Defined.

(** ** What the counts count *)

Lemma countOf_bump k k' m :
  countOf (bump k m) k' = countOf m k' + (if String.eqb k k' then 1 else 0).
Proof.
  unfold countOf, bump. destruct (String.eqb k k') eqn:E.
  - apply String.eqb_eq in E as ->. now rewrite lookup_insert_eq.
  - apply String.eqb_neq in E. rewrite lookup_insert_ne by exact E. simpl. lia.
Qed.

(** A loop that bumps the counter of each accepted item's key counts, for
    every key, the accepted items with that key. *)
Lemma count_fold {A} (P : A -> bool) (key : A -> option string) (l : list A) :
  forall init k,
  countOf (foldl (fun acc s =>
                    if P s then match key s with
                                | Some x => bump x acc
                                | None => acc
                                end
                    else acc) init l) k
  = countOf init k
    + List.length (List.filter
                     (fun s => P s && match key s with
                                      | Some x => String.eqb x k
                                      | None => false
                                      end) l).
Proof.
  induction l as [|a l IH]; intros init k; simpl; [lia|].
  rewrite IH. destruct (P a); simpl; [|lia].
  destruct (key a) as [x|]; simpl; [|lia].
  rewrite countOf_bump. destruct (String.eqb x k); simpl; lia.
Qed.


Lemma filter_ext_in' {A} (f g : A -> bool) (l : list A) :
  (forall x, x ∈ l -> f x = g x) -> List.filter f l = List.filter g l.
Proof.
  induction l as [|a l IH]; intros H; simpl; [reflexivity|].
  rewrite (H a) by apply list_elem_of_here. rewrite IH; [reflexivity|].
  intros x Hx. apply H. now apply list_elem_of_further.
Qed.







(** The scope group [updateFacetCounts] leaves behind. *)
Lemma updateFacetCounts_scopeGroup localeSort d els :
  scopeGroup (updateFacetCounts localeSort (Some d) els)
  = buildToggleGroup
      (map (fun v => (v, Some (countOf (scopeCounts (Some d) els) v))) allScopes)
      (Some (orAll (getSelectedSet (Some (scopeGroup els))) allScopes)).
Proof.
  unfold updateFacetCounts. cbv zeta.
  set (els1 := withScopeGroup _ els).
  change (topicGroup els1) with (topicGroup els).
  destruct (topicGroup els); reflexivity.
Qed.



(** *** Tiers *)

Lemma foldl_ext_fun {A B} (f g : B -> A -> B) (l : list A) :
  (forall acc x, f acc x = g acc x) -> forall init, foldl f init l = foldl g init l.
Proof.
  intros H. induction l as [|a l IH]; intros init; simpl; [reflexivity|].
  now rewrite H, IH.
Qed.

Lemma tierCount_eq els items k :
  countOf (tierCount els items) k
  = List.length
      (List.filter
         (fun s => passFilters els s tierOnly
                   && match versionEntry s (versionSelect els) with
                      | Some v => String.eqb (stierOf s v) k
                      | None => false
                      end) items).
Proof.
  unfold tierCount.
  rewrite (foldl_ext_fun _
             (fun acc s =>
                if passFilters els s tierOnly
                then match (match versionEntry s (versionSelect els) with
                            | Some v => Some (stierOf s v)
                            | None => None
                            end) with
                     | Some x => bump x acc
                     | None => acc
                     end
                else acc)).
  2:{ intros acc s. fold tierOnly.
      now destruct (versionEntry s (versionSelect els)). }
  rewrite (count_fold (fun s => passFilters els s tierOnly)).
  assert (countOf (<["production":=0]> (<["beta":=0]> (<["experimental":=0]> ∅))) k = 0)
    as ->.
  { unfold countOf. rewrite !lookup_insert. repeat case_decide; reflexivity. }
  simpl. f_equal. apply filter_ext. intros s.
  now destruct (versionEntry s (versionSelect els)).
Qed.

Lemma solo_tiers els i b :
  tierGroup els !! i = Some b ->
  selectedTiersOf (withTierGroup (click true i (tierGroup els)) els) = [value b].
Proof.
  intros Hi. unfold selectedTiersOf. cbn [tierGroup withTierGroup].
  unfold getSelectedValues. now rewrite (solo_selected _ i b Hi).
Qed.

Lemma solo_tier_filter els i b s :
  tierGroup els !! i = Some b ->
  has (specialSelOf els) "cloud" = false -> has (specialSelOf els) "refs" = false ->
  listFilter (withTierGroup (click true i (tierGroup els)) els) s
  = passFilters els s tierOnly
    && match versionEntry s (versionSelect els) with
       | Some v => String.eqb (stierOf s v) (value b)
       | None => false
       end.
Proof.
  intros Hi Hc Hr. set (els' := withTierGroup _ els).
  destruct (versionEntry s (versionSelect els)) as [v|] eqn:Hv.
  - apply bool_eq_iff.
    rewrite (listFilter_dims els' s v Hv), andb_true_iff,
      (passFilters_dims els s v tierOnly Hv), String.eqb_eq.
    unfold TierDim. subst els'. rewrite (solo_tiers els i b Hi).
    change (topicDim (withTierGroup (click true i (tierGroup els)) els) s)
      with (topicDim els s).
    change (changedDim (withTierGroup (click true i (tierGroup els)) els) v)
      with (changedDim els v).
    change (queryDim (withTierGroup (click true i (tierGroup els)) els) s)
      with (queryDim els s).
    change (specialDim (withTierGroup (click true i (tierGroup els)) els) s)
      with (specialDim els s).
    rewrite (specialDim_off els s Hc Hr), list_elem_of_singleton.
    cbn [ignoreTier ignoreTopics tierOnly]. intuition congruence.
  - rewrite listFilter_none by exact Hv. now rewrite passFilters_none.
Qed.

(** X11. When neither special pill is pressed, the count computed for a
    tier is the number of rows the list shows once that tier alone is
    selected (with the solo click). *)
Theorem tier_count_is_solo_list (data : option Dataset) (els : Controls)
    (i : nat) (b : Toggle) :
  tierGroup els !! i = Some b ->
  has (specialSelOf els) "cloud" = false ->
  has (specialSelOf els) "refs" = false ->
  countOf (tierCount els (combinedDataset data (getSelectedScopes els))) (value b)
  = List.length (renderList data (withTierGroup (click true i (tierGroup els)) els)).
Proof.
  intros Hi Hc Hr. rewrite tierCount_eq. unfold renderList.
  change (getSelectedScopes (withTierGroup (click true i (tierGroup els)) els))
    with (getSelectedScopes els).
  f_equal. apply filter_ext. intros s. symmetry. now apply solo_tier_filter.
Qed.

Lemma tier_count_is_solo_list_witness :
  countOf (tierCount ex_els
             (combinedDataset (Some (loadData ex_doc)) (getSelectedScopes ex_els)))
          "production"
  = List.length (renderList (Some (loadData ex_doc))
                   (withTierGroup (click true 0 (tierGroup ex_els)) ex_els)).
Proof.
  apply (tier_count_is_solo_list (Some (loadData ex_doc)) ex_els 0
           (mkToggle "production" true) eq_refl); reflexivity.
Defined.

(** ** Writing the URL *)

Lemma lookup_setList k arr (sp : gmap string string) :
  setList k arr sp !! k = listParam arr.
Proof.
  unfold setList, listParam. destruct arr.
  - apply lookup_delete_eq.
  - apply lookup_insert_eq.
Qed.

Lemma trim_empty_input q :
  negb (isEmpty q) && negb (isEmpty (trim q)) = negb (isEmpty (trim q)).
Proof. now destruct q. Qed.

(** Every parameter of the URL after [updateUrlFromState]. *)
Lemma updateUrl_lookup els sp k :
  updateUrlFromState els sp !! k
  = match writtenParam els k with
    | Some v => v
    | None => sp !! k
    end.
Proof.
  unfold updateUrlFromState, writtenParam.
  destruct (String.eqb k "changed") eqn:E1.
  { apply String.eqb_eq in E1 as ->. now rewrite lookup_setOrDelete. }
  apply String.eqb_neq in E1. rewrite lookup_setOrDelete_ne by congruence.
  destruct (String.eqb k "special") eqn:E2.
  { apply String.eqb_eq in E2 as ->. now rewrite lookup_setList. }
  apply String.eqb_neq in E2. rewrite lookup_setList_ne by congruence.
  destruct (String.eqb k "tiers") eqn:E3.
  { apply String.eqb_eq in E3 as ->. now rewrite lookup_setList. }
  apply String.eqb_neq in E3. rewrite lookup_setList_ne by congruence.
  destruct (String.eqb k "topics") eqn:E4.
  { apply String.eqb_eq in E4 as ->. now rewrite lookup_setList. }
  apply String.eqb_neq in E4. rewrite lookup_setList_ne by congruence.
  destruct (String.eqb k "scopes") eqn:E5.
  { apply String.eqb_eq in E5 as ->. now rewrite lookup_setList. }
  apply String.eqb_neq in E5. rewrite lookup_setList_ne by congruence.
  destruct (String.eqb k "v") eqn:E6.
  { apply String.eqb_eq in E6 as ->. rewrite lookup_setOrDelete.
    now destruct (isEmpty (versionSelect els)). }
  apply String.eqb_neq in E6. rewrite lookup_setOrDelete_ne by congruence.
  destruct (String.eqb k "q") eqn:E7.
  { apply String.eqb_eq in E7 as ->. rewrite lookup_setOrDelete, trim_empty_input.
    now destruct (isEmpty (trim (searchInput els))). }
  apply String.eqb_neq in E7. now rewrite lookup_setOrDelete_ne by congruence.
Qed.

(** X12. [updateUrlFromState] touches only its seven parameters: every
    other parameter of the URL keeps its value; what it leaves in its own
    parameters does not depend on the URL before; writing a second time
    changes nothing (so no history entry is replaced twice); and a facet
    with nothing selected has its parameter removed, whatever was there. *)
Theorem updateUrl_owns_seven_params (els : Controls) (sp : gmap string string) :
  (forall k, k ∉ ["q"; "v"; "scopes"; "topics"; "tiers"; "special"; "changed"] ->
             updateUrlFromState els sp !! k = sp !! k)
  /\ (forall k sp', k ∈ ["q"; "v"; "scopes"; "topics"; "tiers"; "special"; "changed"] ->
             updateUrlFromState els sp !! k = updateUrlFromState els sp' !! k)
  /\ updateUrlFromState els (updateUrlFromState els sp) = updateUrlFromState els sp
  /\ (getSelectedValues (topicGroup els) = [] ->
      updateUrlFromState els sp !! "topics" = None
      /\ st_topics (parseStateFromUrl (updateUrlFromState els sp)) = None).
Proof.
  split; [|split; [|split]].
  - intros k Hk. rewrite updateUrl_lookup. unfold writtenParam.
    rewrite !not_elem_of_cons in Hk. destruct Hk as (H1 & H2 & H3 & H4 & H5 & H6 & H7 & _).
    apply String.eqb_neq in H1, H2, H3, H4, H5, H6, H7.
    now rewrite H1, H2, H3, H4, H5, H6, H7.
  - intros k sp' Hk. rewrite !updateUrl_lookup.
    rewrite !elem_of_cons, elem_of_nil in Hk.
    destruct Hk as [-> | [-> | [-> | [-> | [-> | [-> | [-> | []]]]]]]]; reflexivity.
  - apply map_eq. intros k. rewrite !updateUrl_lookup.
    now destruct (writtenParam els k).
  - intros Hsel.
    assert (H : updateUrlFromState els sp !! "topics" = None).
    { rewrite updateUrl_lookup. cbn. now rewrite Hsel. }
    split; [exact H|]. cbn [parseStateFromUrl st_topics]. unfold getList. now rewrite H.
Qed.

Lemma updateUrl_owns_seven_params_witness :
  updateUrlFromState ex_els {[ "utm" := "x"; "topics" := "Old" ]} !! "utm" = Some "x"
  /\ updateUrlFromState (withTopicGroup None ex_els)
       {[ "utm" := "x"; "topics" := "Old" ]} !! "topics" = None.
Proof.
  destruct (updateUrl_owns_seven_params ex_els {[ "utm" := "x"; "topics" := "Old" ]})
    as (Hother & _).
  destruct (updateUrl_owns_seven_params (withTopicGroup None ex_els)
              {[ "utm" := "x"; "topics" := "Old" ]}) as (_ & _ & _ & Hnone).
  split.
  - rewrite Hother; [reflexivity|]. apply (bool_decide_unpack _). vm_compute. exact I.
  - apply Hnone. reflexivity.
Defined.

(** ** Reading the URL *)

(** X13. Every list [parseStateFromUrl] returns holds only non-empty
    values without white space at their ends, however the parameter was
    written; a missing or empty parameter gives no list; the query and the
    version default to the empty text and the flag to false. *)
Theorem parsed_lists_are_clean (sp : gmap string string) (k : string) :
  (forall l, getList sp k = Some l ->
     Forall (fun x => isEmpty x = false /\ trim x = x) l)
  /\ (sp !! k = None \/ sp !! k = Some "" -> getList sp k = None)
  /\ parseStateFromUrl ∅
     = {| st_q := ""; st_v := ""; st_scopes := None; st_topics := None;
          st_tiers := None; st_special := None; st_changed := false |}.
Proof.
  split; [|split; [|reflexivity]].
  - intros l. unfold getList. destruct (sp !! k) as [v|]; [|discriminate].
    destruct (isEmpty v); [discriminate|]. intros [= <-].
    induction (splitComma v) as [|x xs IH]; [constructor|].
    simpl. destruct (isEmpty (trim x)) eqn:E; simpl; [exact IH|].
    constructor; [|exact IH]. split; [exact E | apply trim_idem].
  - unfold getList. intros [-> | ->]; reflexivity.
Qed.

Lemma parsed_lists_are_clean_witness :
  getList {[ "scopes" := " session ,, format," ]} "scopes" = Some ["session"; "format"]
  /\ Forall (fun x => isEmpty x = false /\ trim x = x) ["session"; "format"].
Proof.
  split; [reflexivity|].
  destruct (parsed_lists_are_clean {[ "scopes" := " session ,, format," ]} "scopes")
    as (H & _).
  apply H. reflexivity.
Defined.

(** ** Restoring the controls *)

Lemma selected_value_iff (g : list Toggle) (b : Toggle) :
  NoDup (map value g) -> b ∈ g ->
  (value b ∈ getSelectedValues (Some g) <-> selected b = true).
Proof.
  intros Hn Hb. unfold getSelectedValues.
  induction g as [|a g IH]; [now apply elem_of_nil in Hb|].
  simpl in Hn. apply NoDup_cons in Hn as [Ha Hn].
  apply elem_of_cons in Hb as [-> | Hb].
  - simpl. destruct (selected a) eqn:E; simpl.
    + split; [reflexivity | intros _; apply list_elem_of_here].
    + split; [|discriminate]. intros Hin. exfalso. apply Ha.
      now apply (selected_sub g).
  - assert (value a <> value b).
    { intros Heq. apply Ha. rewrite Heq. apply list_elem_of_fmap_2. exact Hb. }
    simpl. destruct (selected a); simpl; rewrite ?elem_of_cons; specialize (IH Hn Hb);
      intuition congruence.
Qed.






(** ** What a recomputation of the facets keeps *)

Lemma buildToggleGroup_selected options set :
  getSelectedValues (Some (buildToggleGroup options (Some set)))
  = List.filter (has set) (map fst options).
Proof.
  unfold getSelectedValues, buildToggleGroup.
  induction options as [|o options IH]; [reflexivity|].
  simpl. destruct (has set o.1); simpl; now rewrite IH.
Qed.

Lemma filter_has_all (l : list string) : List.filter (has l) l = l.
Proof.
  assert (H : forall l', (forall x, x ∈ l' -> x ∈ l) -> List.filter (has l) l' = l').
  { induction l' as [|a l' IH]; intros Hsub; [reflexivity|]. simpl.
    assert (has l a = true) as -> by (apply has_true, Hsub, list_elem_of_here).
    f_equal. apply IH. intros x Hx. apply Hsub. now apply list_elem_of_further. }
  now apply H.
Qed.

(** The scopes in effect after the scope group is rebuilt are the scopes
    in effect before. *)
Lemma rebuilt_scopes_kept (els : Controls) (counts : string -> option nat) k :
  (forall v, v ∈ map value (scopeGroup els) -> v ∈ allScopes) ->
  k ∈ getSelectedScopes
        (withScopeGroup
           (buildToggleGroup (map (fun v => (v, counts v)) allScopes)
              (Some (orAll (getSelectedSet (Some (scopeGroup els))) allScopes))) els)
  <-> k ∈ getSelectedScopes els.
Proof.
  intros Hvals. rewrite !getSelectedScopes_eq. cbn [scopeGroup withScopeGroup].
  rewrite buildToggleGroup_selected, map_map. cbn [fst]. rewrite map_id.
  unfold getSelectedSet.
  destruct (getSelectedValues (Some (scopeGroup els))) as [|v vals] eqn:E.
  - cbn [orAll]. rewrite (newSet_NoDup allScopes), filter_has_all; [reflexivity|].
    apply (bool_decide_unpack _). vm_compute. exact I.
  - cbn [orAll].
    assert (Hsub : forall x, x ∈ v :: vals -> x ∈ allScopes).
    { intros x Hx. apply Hvals. rewrite <- E in Hx. now apply selected_sub. }
    assert (Hmem : forall x, x ∈ List.filter (has (newSet (v :: vals))) allScopes
                             <-> x ∈ v :: vals).
    { intros x. rewrite list_elem_of_In, filter_In, <- list_elem_of_In, has_true,
        elem_of_newSet. specialize (Hsub x). tauto. }
    destruct (List.filter (has (newSet (v :: vals))) allScopes) as [|f fs] eqn:F.
    + exfalso. assert (Hv : v ∈ []) by (apply Hmem, list_elem_of_here).
      now apply elem_of_nil in Hv.
    + apply Hmem.
Qed.

Lemma updateFacetCounts_fields localeSort d els :
  versionSelect (updateFacetCounts localeSort (Some d) els) = versionSelect els
  /\ searchInput (updateFacetCounts localeSort (Some d) els) = searchInput els
  /\ changedOnly (updateFacetCounts localeSort (Some d) els) = changedOnly els
  /\ specialGroup (updateFacetCounts localeSort (Some d) els) = specialGroup els
  /\ map value (tierGroup (updateFacetCounts localeSort (Some d) els)) = allTiers.
Proof.
  unfold updateFacetCounts. cbv zeta.
  set (els1 := withScopeGroup _ els).
  change (topicGroup els1) with (topicGroup els).
  destruct (topicGroup els); repeat split.
Qed.

(** X15. A recomputation of the facets leaves the selected version, the
    query, the changed-only flag and the special pills alone; it rebuilds
    the scope and tier groups as the three scopes and the three tiers; and
    the scopes in effect stay the same, so the next rendering draws from
    the same records.  Without a loaded dataset it does nothing. *)
Theorem updateFacetCounts_keeps (localeSort : list string -> list string)
    (data : option Dataset) (els : Controls) :
  (forall v, v ∈ map value (scopeGroup els) -> v ∈ allScopes) ->
  let els' := updateFacetCounts localeSort data els in
  versionSelect els' = versionSelect els
  /\ searchInput els' = searchInput els
  /\ changedOnly els' = changedOnly els
  /\ specialGroup els' = specialGroup els
  /\ (forall d, data = Some d ->
        map value (scopeGroup els') = allScopes
        /\ map value (tierGroup els') = allTiers)
  /\ combinedDataset data (getSelectedScopes els')
     = combinedDataset data (getSelectedScopes els)
  /\ updateFacetCounts localeSort None els = els.
Proof.
  intros Hvals. cbv zeta. destruct data as [d|]; [|repeat split; discriminate].
  destruct (updateFacetCounts_fields localeSort d els) as (Hv & Hq & Hc & Hp & Ht).
  split; [exact Hv|]. split; [exact Hq|]. split; [exact Hc|]. split; [exact Hp|].
  split; [|split; [|reflexivity]].
  - intros d' _. split; [|exact Ht].
    rewrite updateFacetCounts_scopeGroup, buildToggleGroup_values, map_map.
    apply map_id.
  - apply combinedDataset_ext. intros k Hk. apply bool_eq_iff. rewrite !has_true.
    rewrite (getSelectedScopes_eq (updateFacetCounts localeSort (Some d) els)),
      updateFacetCounts_scopeGroup.
    exact (rebuilt_scopes_kept els
             (fun v => Some (countOf (scopeCounts (Some d) els) v)) k Hvals).
Qed.

Lemma updateFacetCounts_keeps_witness :
  combinedDataset (Some (loadData ex_doc))
    (getSelectedScopes (updateFacetCounts (fun l => l) (Some (loadData ex_doc)) ex_els))
  = combinedDataset (Some (loadData ex_doc)) (getSelectedScopes ex_els).
Proof.
  destruct (updateFacetCounts_keeps (fun l => l) (Some (loadData ex_doc)) ex_els)
    as (_ & _ & _ & _ & _ & H & _); [|exact H].
  intros v Hv. exact Hv.
Defined.

(** ** The rebuilt topic group *)

Lemma topicsOfItem_allowed s t : t ∈ topicsOfItem s -> t ∉ TOPIC_BLOCKLIST.
Proof.
  unfold topicsOfItem. rewrite elem_of_app. intros [H | H].
  - destruct (has TOPIC_BLOCKLIST (catOf s)) eqn:E; [now apply elem_of_nil in H|].
    apply list_elem_of_singleton in H as ->. now apply has_false.
  - apply list_elem_of_In, filter_In in H as [_ H].
    apply negb_true_iff in H. now apply has_false.
Qed.

(** The topic group [updateFacetCounts] leaves behind, from the group
    before. *)
Lemma updateFacetCounts_topicGroup localeSort d els :
  (forall v, v ∈ map value (scopeGroup els) -> v ∈ allScopes) ->
  let items := combinedDataset (Some d) (getSelectedScopes els) in
  let topics := localeSort (newSet (flat_map topicsOfItem items)) in
  topicGroup (updateFacetCounts localeSort (Some d) els)
  = match topicGroup els with
    | None => None
    | Some prev =>
        Some (buildToggleGroup
                (map (fun t => (t, Some (countOf (topicCount els items) t))) topics)
                (Some (topicSelection prev topics)))
    end.
Proof.
  intros Hvals. cbv zeta. unfold updateFacetCounts. cbv zeta.
  set (els1 := withScopeGroup _ els).
  assert (Hitems : combinedDataset (Some d) (getSelectedScopes els1)
                   = combinedDataset (Some d) (getSelectedScopes els)).
  { apply combinedDataset_ext. intros k Hk. apply bool_eq_iff. rewrite !has_true.
    exact (rebuilt_scopes_kept els
             (fun v => Some (countOf (scopeCounts (Some d) els) v)) k Hvals). }
  rewrite Hitems.
  change (topicGroup els1) with (topicGroup els).
  destruct (topicGroup els) as [prev|] eqn:E; [reflexivity|].
  cbn [topicGroup withTierGroup]. subst els1. cbn [topicGroup withScopeGroup].
  exact E.
Qed.

Section TopicOptions.
Variable localeSort : list string -> list string.
Hypothesis localeSort_perm : forall l, localeSort l ≡ₚ l.

(** X16. After a recomputation of the facets the topic group offers
    exactly the topics of the records of the scopes in effect (a record's
    category, or Uncategorized, and its subsystem tags), each once and
    never one of the three scope names; every button shows the count
    computed for its topic, and the buttons selected are those the
    selection policy names. *)
Theorem rebuilt_topic_options (d : Dataset) (els : Controls) (g : list Toggle) :
  (forall v, v ∈ map value (scopeGroup els) -> v ∈ allScopes) ->
  topicGroup (updateFacetCounts localeSort (Some d) els) = Some g ->
  let items := combinedDataset (Some d) (getSelectedScopes els) in
  (forall t, t ∈ map value g <-> exists s, s ∈ items /\ t ∈ topicsOfItem s)
  /\ (forall t, t ∈ map value g -> t ∉ TOPIC_BLOCKLIST)
  /\ NoDup (map value g)
  /\ (forall b, b ∈ g ->
        count b = Some (countOf (topicCount els items) (value b)))
  /\ exists prev, topicGroup els = Some prev
       /\ getSelectedValues (Some g)
          = List.filter (has (topicSelection prev (map value g))) (map value g).
Proof.
  intros Hvals Hg. cbv zeta.
  rewrite (updateFacetCounts_topicGroup localeSort d els Hvals) in Hg. cbv zeta in Hg.
  set (items := combinedDataset (Some d) (getSelectedScopes els)) in *.
  set (topics := localeSort (newSet (flat_map topicsOfItem items))) in *.
  destruct (topicGroup els) as [prev|]; [|discriminate].
  apply (inj Some) in Hg. subst g.
  assert (Hvalues : map value
            (buildToggleGroup
               (map (fun t => (t, Some (countOf (topicCount els items) t))) topics)
               (Some (topicSelection prev topics))) = topics).
  { rewrite buildToggleGroup_values, map_map. apply map_id. }
  assert (Hmem : forall t, t ∈ topics <-> exists s, s ∈ items /\ t ∈ topicsOfItem s).
  { intros t. subst topics. rewrite localeSort_perm, elem_of_newSet.
    rewrite list_elem_of_In, in_flat_map. setoid_rewrite <- list_elem_of_In.
    reflexivity. }
  rewrite Hvalues. split; [exact Hmem|]. split; [|split; [|split]].
  - intros t Ht. apply Hmem in Ht as (s & _ & Ht). now apply topicsOfItem_allowed in Ht.
  - subst topics. rewrite localeSort_perm. apply NoDup_newSet.
  - intros b Hb. unfold buildToggleGroup in Hb.
    apply list_elem_of_In, in_map_iff in Hb as (o & <- & Ho).
    apply in_map_iff in Ho as (t & <- & _). reflexivity.
  - exists prev. split; [reflexivity|].
    rewrite buildToggleGroup_selected, map_map. cbn [fst]. now rewrite map_id.
Qed.

End TopicOptions.

Lemma rebuilt_topic_options_witness :
  NoDup (map value
           [ {| value := "Performance"; selected := true; count := Some 1 |};
             {| value := "Resource Control"; selected := false; count := Some 1 |} ])
  /\ "Performance" ∉ TOPIC_BLOCKLIST.
Proof.
  destruct (rebuilt_topic_options (fun l => l) (fun l => reflexivity l)
              (loadData ex_doc) ex_els
              [ {| value := "Performance"; selected := true; count := Some 1 |};
                {| value := "Resource Control"; selected := false; count := Some 1 |} ])
    as (_ & Hb & Hn & _).
  - intros v Hv. exact Hv.
  - vm_compute. reflexivity.
  - split; [exact Hn|]. apply Hb. apply list_elem_of_here.
Defined.

(** ** More on search tokens *)

Lemma trimStart_blank s : anyChar notSpace s = false -> trimStart s = "".
Proof.
  induction s as [|c s IH]; [reflexivity|]. simpl. unfold notSpace at 1.
  intros H. apply orb_false_iff in H as [Hc Hs]. apply negb_false_iff in Hc.
  rewrite Hc. now apply IH.
Qed.

Lemma blank_lower s : anyChar notSpace (toLowerCase s) = anyChar notSpace s.
Proof.
  induction s as [|c s IH]; [reflexivity|]. simpl. unfold notSpace at 1 3.
  now rewrite charToLower_space, IH.
Qed.

(** X17. A query of white space only (or empty) has no token, so every
    record passes the query test, whatever its haystack. *)
Theorem blank_query_matches_all (q : string) :
  anyChar notSpace q = false ->
  parseQueryToTokens q = []
  /\ (forall hay, matchesQuery hay (parseQueryToTokens q) = true)
  /\ (forall els s, searchInput els = q -> queryDim els s = true).
Proof.
  intros Hq.
  assert (H : parseQueryToTokens q = []).
  { unfold parseQueryToTokens, trim.
    rewrite trimStart_blank by (now rewrite blank_lower). reflexivity. }
  split; [exact H|]. split.
  - intros hay. now rewrite H.
  - intros els s Hs. unfold queryDim. rewrite getSearchTokens_eq, Hs, H. reflexivity.
Qed.

Lemma blank_query_matches_all_witness :
  parseQueryToTokens "   " = [].
Proof.
  destruct (blank_query_matches_all "   " eq_refl) as [H _]. exact H.
Defined.

(** *** Where the characters of a token come from *)

Section Chars.
Variable np : ascii -> bool.

Lemma clean_trimStart s : anyChar np s = false -> anyChar np (trimStart s) = false.
Proof.
  induction s as [|c s IH]; [reflexivity|]. simpl.
  destruct (isSpace c); [|exact id].
  intros H. apply orb_false_iff in H as [_ Hs]. now apply IH.
Qed.

Lemma clean_trimEnd s : anyChar np s = false -> anyChar np (trimEnd s) = false.
Proof.
  induction s as [|c s IH]; [reflexivity|]. simpl.
  intros H. apply orb_false_iff in H as [Hc Hs].
  destruct (isSpace c && isEmpty (trimEnd s)); [reflexivity|].
  simpl. now rewrite Hc, IH.
Qed.

Lemma clean_trim s : anyChar np s = false -> anyChar np (trim s) = false.
Proof. intros H. unfold trim. now apply clean_trimEnd, clean_trimStart. Qed.

Lemma clean_span p s a b :
  span p s = (a, b) -> anyChar np s = false ->
  anyChar np a = false /\ anyChar np b = false.
Proof.
  intros Hs H. apply span_app_eq in Hs as ->.
  rewrite anyChar_app in H. now apply orb_false_iff in H.
Qed.

Lemma clean_matchHere s m rest :
  matchHere s = Some (m, rest) -> anyChar np s = false ->
  anyChar np (orElse (group1 m) (orElse (group2 m) "")) = false
  /\ anyChar np rest = false.
Proof.
  destruct s as [|c r]; [discriminate|]. unfold matchHere.
  intros Hm H.
  assert (Hword :
    (if isSpace c then None
     else let '(w, rest0) := span notSpace (String c r) in
          Some ({| group1 := None; group2 := Some w |}, rest0)) = Some (m, rest) ->
    anyChar np (orElse (group1 m) (orElse (group2 m) "")) = false
    /\ anyChar np rest = false).
  { destruct (isSpace c); [discriminate|].
    destruct (span notSpace (String c r)) as [w rest0] eqn:E. intros [= <- <-].
    destruct (clean_span _ _ _ _ E H) as [Hw Hr]. split; [|exact Hr].
    cbn [group1 group2 orElse]. now destruct w. }
  destruct (isQuote c); [|now apply Hword].
  destruct (span notQuote r) as [a b] eqn:E.
  simpl in H. apply orb_false_iff in H as [Hc Hr].
  destruct (clean_span _ _ _ _ E Hr) as [Ha Hb].
  destruct a as [|x a]; [now apply Hword|]. destruct b as [|y b]; [now apply Hword|].
  injection Hm as <- <-. cbn [group1 group2 orElse isEmpty]. split; [exact Ha|].
  simpl in Hb. now apply orb_false_iff in Hb.
Qed.

Lemma clean_exec s m rest :
  exec s = Some (m, rest) -> anyChar np s = false ->
  anyChar np (orElse (group1 m) (orElse (group2 m) "")) = false
  /\ anyChar np rest = false.
Proof.
  induction s as [|c r IH]; rewrite exec_eq.
  - discriminate.
  - destruct (matchHere (String c r)) as [[m' rest']|] eqn:E.
    + intros [= <- <-]. now apply clean_matchHere.
    + intros He H. simpl in H. apply orb_false_iff in H as [_ Hr]. now apply IH.
Qed.

Lemma clean_tokens fuel : forall s toks,
  tokensLoop fuel s = Some toks -> anyChar np s = false ->
  forall t, t ∈ toks -> isEmpty t = false /\ trim t = t /\ anyChar np t = false.
Proof.
  induction fuel as [|fuel IH]; intros s toks; rewrite tokensLoop_eq;
    destruct (exec s) as [[m rest]|] eqn:E;
    try (intros [= <-] _ t Ht; now apply elem_of_nil in Ht); try discriminate.
  cbv zeta. destruct (tokensLoop fuel rest) as [toks'|] eqn:Eloop; [|discriminate].
  intros [= <-] H t Ht. destruct (clean_exec _ _ _ E H) as [Hg Hrest].
  destruct (isEmpty (trim _)) eqn:Etok.
  - exact (IH rest toks' Eloop Hrest t Ht).
  - apply elem_of_cons in Ht as [-> | Ht]; [|exact (IH rest toks' Eloop Hrest t Ht)].
    split; [exact Etok|]. split; [apply trim_idem | now apply clean_trim].
Qed.

End Chars.

Lemma lower_fixed s :
  anyChar (fun c => negb (Ascii.eqb (charToLower c) c)) s = false -> toLowerCase s = s.
Proof.
  induction s as [|c s IH]; [reflexivity|]. simpl.
  intros H. apply orb_false_iff in H as [Hc Hs].
  apply negb_false_iff, Ascii.eqb_eq in Hc. now rewrite Hc, IH.
Qed.

Lemma lower_is_fixed s :
  anyChar (fun c => negb (Ascii.eqb (charToLower c) c)) (toLowerCase s) = false.
Proof.
  induction s as [|c s IH]; [reflexivity|]. simpl.
  now rewrite charToLower_idem, Ascii.eqb_refl, IH.
Qed.

(** X18. Every token of every query is non-empty, has no white space at
    either end, and is in lower case; a character that does not occur in
    the query (for instance a double quote, in a query without one) does
    not occur in any token. *)
Theorem tokens_are_clean (q t : string) :
  t ∈ parseQueryToTokens q ->
  isEmpty t = false /\ trim t = t /\ toLowerCase t = t
  /\ forall c, anyChar (Ascii.eqb c) (toLowerCase q) = false ->
               anyChar (Ascii.eqb c) t = false.
Proof.
  unfold parseQueryToTokens. set (s := trim (toLowerCase q)).
  destruct (isEmpty s); [intros H; now apply elem_of_nil in H|].
  destruct (tokensLoop (String.length s) s) as [toks|] eqn:E;
    [|intros H; now apply elem_of_nil in H].
  intros Ht.
  destruct (clean_tokens (fun c => negb (Ascii.eqb (charToLower c) c)) _ _ _ E) with t
    as (Hne & Htrim & Hlow); [apply clean_trim, lower_is_fixed | exact Ht |].
  split; [exact Hne|]. split; [exact Htrim|]. split; [now apply lower_fixed|].
  intros c Hc.
  destruct (clean_tokens (Ascii.eqb c) _ _ _ E) with t as (_ & _ & H);
    [now apply clean_trim | exact Ht | exact H].
Qed.

Lemma tokens_are_clean_witness :
  isEmpty "query  threads" = false /\ trim "query  threads" = "query  threads"
  /\ toLowerCase "query  threads" = "query  threads".
Proof.
  destruct (tokens_are_clean
              (queryText [Word "Max"; Phrase " Query  Threads "; Word "s3_"])
              "query  threads") as (H1 & H2 & H3 & _).
  - apply (bool_decide_unpack _). vm_compute. exact I.
  - auto.
Defined.

(** ** Inferred subsystem tags *)

Lemma elem_of_add x y subs : x ∈ add y subs <-> x ∈ subs \/ x = y.
Proof.
  unfold add. destruct (has subs y) eqn:E.
  - apply has_true in E. split; [auto|]. intros [H | ->]; assumption.
  - rewrite elem_of_app, list_elem_of_singleton. reflexivity.
Qed.

Lemma elem_of_addIf x b y subs :
  x ∈ addIf b y subs <-> x ∈ subs \/ (b = true /\ x = y).
Proof.
  unfold addIf. destruct b.
  - rewrite elem_of_add. intuition.
  - intuition discriminate.
Qed.

Lemma NoDup_addIf b y subs : NoDup subs -> NoDup (addIf b y subs).
Proof.
  intros Hn. unfold addIf, add. destruct b; [|exact Hn].
  destruct (has subs y) eqn:E; [exact Hn|]. apply has_false in E.
  apply NoDup_app. split; [exact Hn|]. split; [|apply NoDup_singleton].
  intros x Hx Hy. apply list_elem_of_singleton in Hy. congruence.
Qed.

(** X19. The tags inferred for a setting are distinct and all from the
    fixed list of twenty; MergeTree is among them exactly for the scope
    mergetree and Formats exactly for the scope format; and they do not
    depend on the case of the name or of the description. *)
Theorem inferSubsystems_tags (name desc scope : string) :
  NoDup (inferSubsystems name desc scope)
  /\ (forall t, t ∈ inferSubsystems name desc scope -> t ∈ subsystemTags)
  /\ ("MergeTree" ∈ inferSubsystems name desc scope <-> scope = "mergetree")
  /\ ("Formats" ∈ inferSubsystems name desc scope <-> scope = "format")
  /\ inferSubsystems (toLowerCase name) (toLowerCase desc) scope
     = inferSubsystems name desc scope.
Proof.
  split; [|split; [|split; [|split]]].
  - unfold inferSubsystems. cbv zeta. repeat apply NoDup_addIf. constructor.
  - intros t. unfold inferSubsystems. cbv zeta.
    rewrite !elem_of_addIf, elem_of_nil. unfold subsystemTags.
    rewrite !elem_of_cons. intuition.
  - unfold inferSubsystems. cbv zeta.
    rewrite !elem_of_addIf, elem_of_nil, !String.eqb_eq.
    intuition (try discriminate).
  - unfold inferSubsystems. cbv zeta.
    rewrite !elem_of_addIf, elem_of_nil, !String.eqb_eq.
    intuition (try discriminate).
  - assert (Ht : toLowerCase (toLowerCase name ++ " " ++ toLowerCase desc)
                 = toLowerCase (name ++ " " ++ desc)).
    { now rewrite !toLowerCase_app, !toLowerCase_idem. }
    unfold inferSubsystems. now rewrite Ht.
Qed.

Lemma inferSubsystems_tags_witness :
  "MergeTree" ∈ inferSubsystems "parts_to_delay_insert" "" "mergetree".
Proof.
  destruct (inferSubsystems_tags "parts_to_delay_insert" "" "mergetree")
    as (_ & _ & H & _).
  apply H. reflexivity.
Defined.

(** The two boundary expressions on concrete names. *)
Example inferSubsystems_examples :
  inferSubsystems "s3_max_connections" "" "session" = ["S3"; "Resource Control"]
  /\ inferSubsystems "use_css3_rules" "" "session" = []
  /\ inferSubsystems "merge_tree_min_rows" "" "session" = ["Merges"]
  /\ inferSubsystems "max_merges" "" "session" = ["Resource Control"]
  /\ inferSubsystems "emerge" "merges_done and merger" "session" = ["Merges"].
Proof. vm_compute. repeat split. Qed.

(** ** Building the controls *)

Lemma filter_map_comm {A B} (p : B -> bool) (f : A -> B) (l : list A) :
  List.filter p (map f l) = map f (List.filter (fun x => p (f x)) l).
Proof.
  induction l as [|a l IH]; [reflexivity|]. simpl.
  destruct (p (f a)); simpl; now rewrite IH.
Qed.

(** Reading a group's values through its own selection gives the
    selection. *)
Lemma filter_by_selection (g : list Toggle) :
  NoDup (map value g) ->
  List.filter (has (newSet (getSelectedValues (Some g)))) (map value g)
  = getSelectedValues (Some g).
Proof.
  intros Hn. rewrite filter_map_comm. unfold getSelectedValues at 2. f_equal.
  apply filter_ext_in'. intros b Hb. apply bool_eq_iff.
  rewrite has_true, elem_of_newSet. now apply selected_value_iff.
Qed.

Lemma map_fst_plain l : map fst (plain l) = l.
Proof. unfold plain. rewrite map_map. apply map_id. Qed.

Lemma NoDup_allScopes : NoDup allScopes.
Proof. apply (bool_decide_unpack _). vm_compute. exact I. Qed.

(** Rebuilding the scope group keeps the scopes in effect. *)
Lemma rcScopes_same (els : Controls) :
  map value (scopeGroup els) = allScopes ->
  getSelectedScopes (rcScopes els) = getSelectedScopes els
  /\ map value (scopeGroup (rcScopes els)) = allScopes.
Proof.
  intros Hvals. split.
  - rewrite !getSelectedScopes_eq. unfold rcScopes. cbn [scopeGroup withScopeGroup].
    rewrite buildToggleGroup_selected, map_fst_plain. unfold getSelectedSet.
    pose proof (filter_by_selection (scopeGroup els)) as Hsel.
    rewrite Hvals in Hsel. specialize (Hsel NoDup_allScopes).
    destruct (getSelectedValues (Some (scopeGroup els))) as [|v vals] eqn:E.
    + cbn [orAll]. now rewrite (newSet_NoDup _ NoDup_allScopes), filter_has_all.
    + cbn [orAll]. now rewrite Hsel.
  - unfold rcScopes. cbn [scopeGroup withScopeGroup].
    now rewrite buildToggleGroup_values, map_fst_plain.
Qed.

Lemma has_newSet l x : has (newSet l) x = has l x.
Proof. apply bool_eq_iff. now rewrite !has_true, elem_of_newSet. Qed.

Lemma build_all_selected (options : list (string * option nat)) :
  getSelectedValues
    (Some (buildToggleGroup options (Some (newSet (map fst options)))))
  = map value (buildToggleGroup options (Some (newSet (map fst options)))).
Proof.
  rewrite buildToggleGroup_selected, buildToggleGroup_values.
  rewrite (filter_ext _ (has (map fst options))) by (intros x; apply has_newSet).
  apply filter_has_all.
Qed.

(** With every previous button selected, the policy selects every new
    topic. *)
Lemma topicSelection_all_selected (prev : list Toggle) (topics : list string) :
  getSelectedValues (Some prev) = map value prev ->
  topicSelection prev topics = newSet topics.
Proof.
  intros Hall. unfold topicSelection. rewrite Hall, length_map, Nat.eqb_refl.
  destruct prev as [|b prev]; [|reflexivity].
  cbn [map List.length newSet andb]. unfold Nat.ltb at 1 2. cbn [Nat.leb andb].
  rewrite filter_has_nil. cbn [newSet List.length Nat.eqb andb].
  now destruct topics.
Qed.

Lemma rc_fields localeSort d memo els :
  let els5 := rcSpecial (rcTiers (rcTopics localeSort d memo (rcVersion d (rcScopes els)))) in
  versionSelect els5 = match data_versions d with v :: _ => v | [] => "" end
  /\ searchInput els5 = searchInput els
  /\ changedOnly els5 = changedOnly els
  /\ scopeGroup els5 = scopeGroup (rcScopes els)
  /\ topicGroup els5 = topicGroup (rcTopics localeSort d memo (rcVersion d (rcScopes els))).
Proof.
  cbv zeta. unfold rcSpecial, rcTiers.
  set (els3 := rcTopics localeSort d memo (rcVersion d (rcScopes els))).
  assert (H3 : versionSelect els3 = match data_versions d with v :: _ => v | [] => "" end
               /\ searchInput els3 = searchInput els
               /\ changedOnly els3 = changedOnly els
               /\ scopeGroup els3 = scopeGroup (rcScopes els)).
  { subst els3. unfold rcTopics. cbv zeta.
    destruct (topicGroup (rcVersion d (rcScopes els))); repeat split. }
  destruct H3 as (Hv & Hq & Hc & Hs).
  cbn [specialGroup withTierGroup].
  destruct (specialGroup els3); repeat split; assumption.
Qed.

(** X20. [renderControls] puts the version select back on the first
    version of the dataset and leaves the query and the changed-only flag
    alone.  When the scope selection has widened since the last rendering
    and no topic restriction was in force then, every topic of the rebuilt
    group ends up selected; a page without a topic group stays without
    one. *)
Theorem renderControls_rebuilds (localeSort : list string -> list string)
    (d : Dataset) (memo : Memo) (els : Controls) :
  map value (scopeGroup els) = allScopes ->
  let els' := renderControls localeSort d memo els in
  versionSelect els' = match data_versions d with v :: _ => v | [] => "" end
  /\ searchInput els' = searchInput els
  /\ changedOnly els' = changedOnly els
  /\ (topicGroup els = None -> topicGroup els' = None)
  /\ (forall prev, topicGroup els = Some prev ->
        isSupersetOf (lastScopes memo) (getSelectedScopes els) = true ->
        lastApplyTopicFilter memo = Some false ->
        exists g, topicGroup els' = Some g
                  /\ getSelectedValues (Some g) = map value g).
Proof.
  intros Hvals. cbv zeta. unfold renderControls.
  destruct (rc_fields localeSort d memo els) as (Hv & Hq & Hc & Hs & Ht).
  set (els5 := rcSpecial _) in *.
  destruct (updateFacetCounts_fields localeSort d els5) as (Fv & Fq & Fc & _ & _).
  destruct (rcScopes_same els Hvals) as [Hscopes Hvals1].
  assert (Hvals5 : forall v, v ∈ map value (scopeGroup els5) -> v ∈ allScopes).
  { intros v. now rewrite Hs, Hvals1. }
  pose proof (updateFacetCounts_topicGroup localeSort d els5 Hvals5) as Htg.
  cbv zeta in Htg.
  split; [congruence|]. split; [congruence|]. split; [congruence|]. split.
  - intros Hnone. rewrite Htg, Ht. unfold rcTopics. cbv zeta.
    change (topicGroup (rcVersion d (rcScopes els))) with (topicGroup els).
    rewrite Hnone. cbv iota.
    change (topicGroup (rcVersion d (rcScopes els))) with (topicGroup els).
    now rewrite Hnone.
  - intros prev Hprev Hsup Hmemo. rewrite Htg, Ht. unfold rcTopics at 1. cbv zeta.
    change (topicGroup (rcVersion d (rcScopes els))) with (topicGroup els).
    rewrite Hprev.
    change (getSelectedScopes (rcVersion d (rcScopes els)))
      with (getSelectedScopes (rcScopes els)).
    rewrite Hscopes, Hsup, Hmemo. cbn [andb orAll topicGroup withTopicGroup].
    eexists. split; [reflexivity|].
    rewrite topicSelection_all_selected.
    + set (topics' := localeSort _).
      rewrite buildToggleGroup_selected, buildToggleGroup_values, !map_map.
      cbn [fst]. rewrite map_id.
      rewrite (filter_ext _ (has topics')) by (intros x; apply has_newSet).
      apply filter_has_all.
    + set (topics := localeSort _).
      pose proof (build_all_selected (plain topics)) as H.
      now rewrite map_fst_plain in H.
Qed.

Lemma renderControls_rebuilds_witness :
  map value (scopeGroup ex_url_els) = allScopes
  /\ versionSelect
       (renderControls (fun l => l) ex_doc (renderListMemo ex_els) ex_url_els)
     = "25.8".
Proof.
  split; [reflexivity|].
  exact (proj1 (renderControls_rebuilds (fun l => l) ex_doc
                  (renderListMemo ex_els) ex_url_els eq_refl)).
Defined.

(** ** Two computations of the topic options *)

Lemma elem_of_filter_list {A} (p : A -> bool) (l : list A) (x : A) :
  x ∈ List.filter p l <-> x ∈ l /\ p x = true.
Proof. now rewrite !list_elem_of_In, filter_In. Qed.

Lemma notBlocked_true t : notBlocked t = true <-> t ∉ TOPIC_BLOCKLIST.
Proof. unfold notBlocked. rewrite negb_true_iff. apply has_false. Qed.

Lemma elem_of_flat_map_list {A B} (f : A -> list B) (l : list A) (y : B) :
  y ∈ flat_map f l <-> exists x, x ∈ l /\ y ∈ f x.
Proof.
  rewrite list_elem_of_In, in_flat_map. setoid_rewrite <- list_elem_of_In.
  reflexivity.
Qed.

Lemma elem_of_map_list {A B} (f : A -> B) (l : list A) (y : B) :
  y ∈ map f l <-> exists x, x ∈ l /\ y = f x.
Proof.
  rewrite list_elem_of_In, in_map_iff. setoid_rewrite <- list_elem_of_In.
  split; intros (x & H1 & H2); exists x; [now split|now split].
Qed.

Lemma elem_of_topicsOfItem s t :
  t ∈ topicsOfItem s <-> (t = catOf s \/ t ∈ subsOf s) /\ t ∉ TOPIC_BLOCKLIST.
Proof.
  unfold topicsOfItem. rewrite elem_of_app, elem_of_filter_list.
  rewrite negb_true_iff, has_false.
  destruct (has TOPIC_BLOCKLIST (catOf s)) eqn:E.
  - apply has_true in E. rewrite elem_of_nil. split.
    + intros [[] | [H1 H2]]. now split; [right|].
    + intros [[-> | H1] H2]; [contradiction|]. now right.
  - apply has_false in E. rewrite list_elem_of_singleton. split.
    + intros [-> | [H1 H2]]; [now split; [left|] | now split; [right|]].
    + intros [[-> | H1] H2]; [now left | now right].
Qed.

(** When at most one of the two subsystem fields is set they read the
    same. *)
Lemma rawSubsOf_subsOf s :
  subsystems s = None \/ _subsystems s = None -> rawSubsOf s = subsOf s.
Proof.
  unfold rawSubsOf, subsOf. intros [-> | ->].
  - now destruct (_subsystems s).
  - now destruct (subsystems s).
Qed.

Section TopicSources.
Variable localeSort : list string -> list string.
Hypothesis localeSort_perm : forall l, localeSort l ≡ₚ l.

Lemma elem_of_controlTopics (items : list Setting) (t : string) :
  t ∈ localeSort
        (newSet (List.filter notBlocked (uniqueCategories localeSort items)
                 ++ List.filter notBlocked (uniqueSubsystems localeSort items))%list)
  <-> (exists s, s ∈ items /\ (t = catOf s \/ t ∈ rawSubsOf s))
      /\ t ∉ TOPIC_BLOCKLIST.
Proof.
  rewrite localeSort_perm, elem_of_newSet, elem_of_app, !elem_of_filter_list.
  unfold uniqueCategories, uniqueSubsystems.
  rewrite !localeSort_perm, !elem_of_newSet, elem_of_map_list,
    elem_of_flat_map_list, !notBlocked_true.
  split.
  - intros [[(s & Hs & ->) Hb] | [(s & Hs & Ht) Hb]].
    + split; [|exact Hb]. exists s. split; [exact Hs|now left].
    + split; [|exact Hb]. exists s. split; [exact Hs|now right].
  - intros [(s & Hs & [-> | Ht]) Hb].
    + left. split; [|exact Hb]. now exists s.
    + right. split; [|exact Hb]. now exists s.
Qed.

(** X21. The topic options [renderControls] builds from
    [uniqueCategories] and [uniqueSubsystems] and the ones
    [updateFacetCounts] builds record by record are the same options, up
    to order, as long as no record carries both a subsystems field of its
    own and an inferred one (the first reads the record's own field
    first, the second the inferred one). *)
Theorem topic_options_agree (items : list Setting) :
  (forall s, s ∈ items -> subsystems s = None \/ _subsystems s = None) ->
  localeSort
    (newSet (List.filter notBlocked (uniqueCategories localeSort items)
             ++ List.filter notBlocked (uniqueSubsystems localeSort items))%list)
  ≡ₚ localeSort (newSet (flat_map topicsOfItem items)).
Proof.
  intros Hone. apply NoDup_Permutation.
  - rewrite localeSort_perm. apply NoDup_newSet.
  - rewrite localeSort_perm. apply NoDup_newSet.
  - intros t. rewrite elem_of_controlTopics.
    rewrite localeSort_perm, elem_of_newSet, elem_of_flat_map_list.
    setoid_rewrite elem_of_topicsOfItem. split.
    + intros [(s & Hs & Ht) Hb]. exists s. split; [exact Hs|].
      split; [|exact Hb]. now rewrite <- (rawSubsOf_subsOf s (Hone s Hs)).
    + intros (s & Hs & Ht & Hb). split; [|exact Hb]. exists s.
      split; [exact Hs|]. now rewrite (rawSubsOf_subsOf s (Hone s Hs)).
Qed.

End TopicSources.

Lemma topic_options_agree_witness :
  (newSet (List.filter notBlocked (uniqueCategories (fun l => l) [ex_max_threads; ex_kafka])
           ++ List.filter notBlocked (uniqueSubsystems (fun l => l) [ex_max_threads; ex_kafka]))%list)
  ≡ₚ newSet (flat_map topicsOfItem [ex_max_threads; ex_kafka]).
Proof.
  apply (topic_options_agree (fun l => l) (fun l => reflexivity l)
           [ex_max_threads; ex_kafka]).
  intros s Hs. apply list_elem_of_In in Hs.
  destruct Hs as [<- | [<- | []]]; left; reflexivity.
Defined.

(** A record with both fields set shows the difference: the control
    offers the record's own tag, the counts the inferred one. *)
Example topic_options_differ :
  let s := set_subsystems (Some ["Kafka"]) 
             {| name := "x"; type_ := "Bool"; category := Some "Storage";
                description := None; cloud_only := false; alias := None;
                flags := None; versions := None; mentions := None;
                subsystems := Some ["S3"];
                _scope := None; _hayLower := None; _subsystems := None |} in
  newSet (List.filter notBlocked (uniqueCategories (fun l => l) [s])
          ++ List.filter notBlocked (uniqueSubsystems (fun l => l) [s]))%list
  = ["Storage"; "S3"]
  /\ newSet (flat_map topicsOfItem [s]) = ["Storage"; "Kafka"].
Proof. split; reflexivity. Qed.
